(** * SUPIR/util.py: a shallow embedding and its checked properties

    The module is glue code: checkpoint loading, model construction and
    conversions between PIL images, NumPy arrays and torch tensors.  The
    embedding below keeps the code's shape:

    - Python numbers are [pynum] (unbounded [int] or binary64 [float]); the
      float operations are the IEEE-754 ones of [SpecFloat], instantiated at
      binary64 for Python/NumPy float64 and at binary32 for NumPy float32;
    - raised exceptions are values of [pyerr], threaded by the error monad
      [exc]; code that logs or touches the disk runs in [io], which keeps
      the trace of events up to and including a raise;
    - arrays are a shape plus row-major data;
    - resampling kernels (PIL bicubic, cv2 Lanczos/area, torch bicubic) and
      the other collaborators (OmegaConf, sgm, torch.load, safetensors, the
      file system) are parameters: only the shape of what they return and
      the order in which they are called is fixed here. *)

From Stdlib Require Import ZArith List String Ascii Bool Lia.
From Stdlib Require Import Strings.Byte.
From Stdlib Require Import Floats.SpecFloat.
Import ListNotations.

Local Open Scope string_scope.
Local Open Scope Z_scope.

(** ** Exceptions and the error monad *)

Inductive pyerr : Type :=
| AssertionError (msg : string)
| NotImplementedError
| ZeroDivisionError
| OverflowError
| ValueError
| TypeError
| AttributeError
| RuntimeError
| ExternalError (msg : string).

Inductive exc (A : Type) : Type :=
| Ok (a : A)
| Raise (e : pyerr).
Arguments Ok {A} a.
Arguments Raise {A} e.

Definition exc_bind {A B} (m : exc A) (k : A -> exc B) : exc B :=
  match m with
  | Ok a => k a
  | Raise e => Raise e
  end.

Declare Scope exc_scope.
Delimit Scope exc_scope with exc.
Notation "'do' x <- m ; k" := (exc_bind m (fun x => k))
  (at level 10, x pattern, m at level 100, k at level 200) : exc_scope.
Local Open Scope exc_scope.

Definition py_assert (b : bool) (msg : string) : exc unit :=
  if b then Ok tt else Raise (AssertionError msg).

(** ** Python numbers *)

Module F64.
Definition prec : Z := 53.
Definition emax : Z := 1024.
Definition add := SFadd prec emax.
Definition sub := SFsub prec emax.
Definition mul := SFmul prec emax.
Definition div := SFdiv prec emax.
Definition ltb := SFltb.
Definition normalize (m e : Z) (szero : bool) : spec_float :=
  binary_normalize prec emax m e szero.
(** The nearest binary64 value of an integer (ties to even); an infinity
    when the integer is out of range. *)
Definition of_Z (z : Z) : spec_float := normalize z 0 false.
End F64.

Module F32.
Definition prec : Z := 24.
Definition emax : Z := 128.
Definition add := SFadd prec emax.
Definition sub := SFsub prec emax.
Definition mul := SFmul prec emax.
Definition div := SFdiv prec emax.
Definition ltb := SFltb.
Definition normalize (m e : Z) (szero : bool) : spec_float :=
  binary_normalize prec emax m e szero.
Definition of_Z (z : Z) : spec_float := normalize z 0 false.
(** Narrowing of a binary64 value, round to nearest even. *)
Definition of_F64 (x : spec_float) : spec_float :=
  match x with
  | S754_finite s m e => normalize (cond_Zopp s (Zpos m)) e s
  | _ => x
  end.
End F32.

Definition is_zero (x : spec_float) : bool :=
  match x with S754_zero _ => true | _ => false end.

Definition is_finite (x : spec_float) : bool :=
  match x with S754_zero _ | S754_finite _ _ _ => true | _ => false end.

(** Round half to even of the exact value [m * 2^e], [m >= 0]. *)
Definition round_half_even_mag (m : Z) (e : Z) : Z :=
  if 0 <=? e then m * 2 ^ e
  else
    let d := 2 ^ (- e) in
    let q := m / d in
    let r := m mod d in
    match Z.compare (2 * r) d with
    | Lt => q
    | Gt => q + 1
    | Eq => if Z.even q then q else q + 1
    end.

(** Truncation toward zero of the exact value [m * 2^e], [m >= 0]. *)
Definition trunc_mag (m : Z) (e : Z) : Z :=
  if 0 <=? e then m * 2 ^ e else m / 2 ^ (- e).

(** Sign of [z - m * 2^e] for a finite float: Python compares an [int]
    with a [float] exactly, not after conversion. *)
Definition cmp_Z_finite (z : Z) (s : bool) (m : positive) (e : Z) : comparison :=
  let v := cond_Zopp s (Zpos m) in
  if 0 <=? e then Z.compare z (v * 2 ^ e)
  else Z.compare (z * 2 ^ (- e)) v.

Inductive pynum : Type :=
| PInt (z : Z)
| PFloat (f : spec_float).

(** [float(x)] *)
Definition py_float (x : pynum) : exc spec_float :=
  match x with
  | PFloat f => Ok f
  | PInt z =>
      let f := F64.of_Z z in
      if is_finite f then Ok f else Raise OverflowError
  end.

(** [a * b] *)
Definition py_mul (a b : pynum) : exc pynum :=
  match a, b with
  | PInt x, PInt y => Ok (PInt (x * y))
  | _, _ =>
      do x <- py_float a;
      do y <- py_float b;
      Ok (PFloat (F64.mul x y))
  end.

(** [a / b] (true division).  On two ints CPython returns the correctly
    rounded quotient of the exact integers. *)
Definition py_truediv (a b : pynum) : exc pynum :=
  match a, b with
  | PInt x, PInt y =>
      match x, y with
      | _, Z0 => Raise ZeroDivisionError
      | Z0, _ => Ok (PFloat (S754_zero (y <? 0)))
      | _, _ =>
          let q := F64.div (S754_finite (x <? 0) (Z.to_pos (Z.abs x)) 0)
                           (S754_finite (y <? 0) (Z.to_pos (Z.abs y)) 0) in
          if is_finite q then Ok (PFloat q) else Raise OverflowError
      end
  | _, _ =>
      do x <- py_float a;
      do y <- py_float b;
      if is_zero y then Raise ZeroDivisionError
      else Ok (PFloat (F64.div x y))
  end.

(** [a < b] *)
Definition py_lt (a b : pynum) : bool :=
  match a, b with
  | PInt x, PInt y => x <? y
  | PFloat x, PFloat y => F64.ltb x y
  | PInt x, PFloat y =>
      match y with
      | S754_nan => false
      | S754_infinity s => negb s
      | S754_zero _ => x <? 0
      | S754_finite s m e =>
          match cmp_Z_finite x s m e with Lt => true | _ => false end
      end
  | PFloat x, PInt y =>
      match x with
      | S754_nan => false
      | S754_infinity s => s
      | S754_zero _ => 0 <? y
      | S754_finite s m e =>
          match cmp_Z_finite y s m e with Gt => true | _ => false end
      end
  end.

(** [a > b] is [b < a]. *)
Definition py_gt (a b : pynum) : bool := py_lt b a.

(** [min(a, b)]: the first argument unless the second is smaller. *)
Definition py_min (a b : pynum) : pynum :=
  if py_lt b a then b else a.

(** [round(x)] with one argument: an [int], ties to even. *)
Definition py_round (x : pynum) : exc Z :=
  match x with
  | PInt z => Ok z
  | PFloat S754_nan => Raise ValueError
  | PFloat (S754_infinity _) => Raise OverflowError
  | PFloat (S754_zero _) => Ok 0
  | PFloat (S754_finite s m e) =>
      Ok (cond_Zopp s (round_half_even_mag (Zpos m) e))
  end.

(** [np.round(x)] on a float: still a float64 (rint), ties to even. *)
Definition np_round (x : spec_float) : spec_float :=
  match x with
  | S754_finite s m e =>
      F64.normalize (cond_Zopp s (round_half_even_mag (Zpos m) e)) 0 s
  | _ => x
  end.

(** [int(x)] on a float: truncation toward zero. *)
Definition py_int_of_float (x : spec_float) : exc Z :=
  match x with
  | S754_nan => Raise ValueError
  | S754_infinity _ => Raise OverflowError
  | S754_zero _ => Ok 0
  | S754_finite s m e => Ok (cond_Zopp s (trunc_mag (Zpos m) e))
  end.

(** [int(np.round(x))]; on an integer [np.round] is the identity. *)
Definition np_round_int (x : pynum) : exc Z :=
  match x with
  | PInt z => Ok z
  | PFloat f => py_int_of_float (np_round f)
  end.

Definition f64_64 : spec_float := Eval vm_compute in F64.of_Z 64.

(** ** Strings and POSIX paths *)

Definition chars := list ascii.

Definition ascii_lower (c : ascii) : ascii :=
  let n := nat_of_ascii c in
  if andb (Nat.leb 65 n) (Nat.leb n 90) then ascii_of_nat (n + 32) else c.

(** [s.lower()].  Only ASCII letters are folded; no other code point
    lowers to a letter of ".safetensors", the one string it is compared
    with. *)
Definition str_lower (s : string) : string :=
  string_of_list_ascii (map ascii_lower (list_ascii_of_string s)).

(** Split at the last occurrence of [c]: the part before it, and the part
    from it on. *)
Fixpoint split_last (c : ascii) (s : chars) : option (chars * chars) :=
  match s with
  | [] => None
  | a :: t =>
      match split_last c t with
      | Some (pre, suf) => Some (a :: pre, suf)
      | None => if Ascii.eqb a c then Some ([], a :: t) else None
      end
  end.

(** [os.path.splitext(p)]: the extension is what follows the last dot of
    the last path component, unless only dots precede it there. *)
Definition splitext (p : string) : string * string :=
  let cs := list_ascii_of_string p in
  let '(head, base) :=
    match split_last "/" cs with
    | Some (pre, suf) => ((pre ++ ["/"%char])%list, tl suf)
    | None => ([], cs)
    end in
  match split_last "." base with
  | Some (name, ext) =>
      if forallb (Ascii.eqb ".") name then (p, "")
      else (string_of_list_ascii (head ++ name)%list, string_of_list_ascii ext)
  | None => (p, "")
  end.

Fixpoint rstrip_slash_rev (r : chars) : chars :=
  match r with
  | a :: t => if Ascii.eqb a "/" then rstrip_slash_rev t else r
  | [] => []
  end.

(** [os.path.dirname(p)] *)
Definition dirname (p : string) : string :=
  let cs := list_ascii_of_string p in
  match split_last "/" cs with
  | None => ""
  | Some (pre, _) =>
      let head := (pre ++ ["/"%char])%list in
      if forallb (Ascii.eqb "/") head then string_of_list_ascii head
      else string_of_list_ascii (rev (rstrip_slash_rev (rev head)))
  end.

Definition starts_with_slash (s : string) : bool :=
  match s with String c _ => Ascii.eqb c "/" | EmptyString => false end.

Definition ends_with_slash (s : string) : bool :=
  match rev (list_ascii_of_string s) with
  | c :: _ => Ascii.eqb c "/"
  | [] => false
  end.

(** [os.path.join(a, b)] *)
Definition path_join2 (a b : string) : string :=
  if starts_with_slash b then b
  else if orb (String.eqb a "") (ends_with_slash a) then a ++ b
  else a ++ "/" ++ b.

(** [os.path.join(a, *ps)] *)
Definition path_join (a : string) (ps : list string) : string :=
  fold_left path_join2 ps a.

(** Truthiness of an optional string: [None] and [''] are false. *)
Definition truthy (s : option string) : bool :=
  match s with
  | Some s => negb (String.eqb s "")
  | None => false
  end.

(** [f'{s}'] for a string or [None]. *)
Definition fmt (s : option string) : string :=
  match s with Some s => s | None => "None" end.

(** ** Checkpoints *)

#[local] Set Warnings "-register-all".

(** What a checkpoint file deserialises to: tensors (opaque, named by an
    identifier) and string-keyed mappings, in insertion order. *)
Inductive pyobj : Type :=
| PTensor (id : N)
| PDict (items : list (string * pyobj)).

Fixpoint assoc {A} (k : string) (l : list (string * A)) : option A :=
  match l with
  | [] => None
  | (k', v) :: t => if String.eqb k k' then Some v else assoc k t
  end.

(** [d.get(k, default)] *)
Definition dict_get (d : pyobj) (k : string) (default : pyobj) : exc pyobj :=
  match d with
  | PDict items =>
      match assoc k items with
      | Some v => Ok v
      | None => Ok default
      end
  | PTensor _ => Raise AttributeError
  end.

Definition get_state_dict (d : pyobj) : exc pyobj :=
  dict_get d "state_dict" d.

(** ** Logged computations *)

Inductive event : Type :=
| Printt (msg : string)
| Print (msg : string)
| ConfigRead (path : string)
| Instantiate
| PathExists (path : string)
| CudaQuery
| CheckpointRead (path : string) (device : string)
| ModelLoadStateDict (state_dict : pyobj).

(** A computation yields the events it performed, in order, and then a
    value or the exception that stopped it. *)
Definition io (A : Type) : Type := list event * exc A.

Definition io_ret {A} (a : A) : io A := ([], Ok a).

Definition io_bind {A B} (m : io A) (k : A -> io B) : io B :=
  match m with
  | (t, Ok a) => let '(t', r) := k a in ((t ++ t')%list, r)
  | (t, Raise e) => (t, Raise e)
  end.

Definition emit (e : event) : io unit := ([e], Ok tt).

(** An external call: its event, then its result. *)
Definition call {A} (e : event) (r : exc A) : io A := ([e], r).

Definition lift {A} (r : exc A) : io A := ([], r).

Declare Scope io_scope.
Delimit Scope io_scope with io.
Notation "'run' x <- m ; k" := (io_bind m (fun x => k))
  (at level 10, x pattern, m at level 100, k at level 200) : io_scope.
Notation "m ;; k" := (io_bind m (fun _ => k))
  (at level 100, right associativity) : io_scope.
Local Open Scope io_scope.

(** The collaborators of the module. *)
Record env : Type := {
  Config : Type;
  ModelConfig : Type;
  Model : Type;
  (** [OmegaConf.load(path)] *)
  OmegaConf_load : string -> exc Config;
  (** [config.model.params.sampler_config.target = v] *)
  set_sampler_target : Config -> string -> exc Config;
  (** [config.SDXL_CKPT = v] *)
  set_SDXL_CKPT : Config -> string -> exc Config;
  (** [config.model] *)
  get_model : Config -> exc ModelConfig;
  (** [config.get('SDXL_CKPT')] *)
  get_SDXL_CKPT : Config -> option string;
  (** [sgm.util.instantiate_from_config] *)
  instantiate_from_config : ModelConfig -> exc Model;
  (** [model.load_state_dict(sd, strict=False)] *)
  Model_load_state_dict : Model -> pyobj -> exc Model;
  (** [model.sampler = v] *)
  set_sampler : Model -> string -> Model;
  (** [os.path.exists] *)
  path_exists : string -> bool;
  (** [torch.cuda.is_available()] *)
  cuda_is_available : bool;
  (** [torch.load(path, map_location=torch.device(location))] *)
  torch_load : string -> string -> exc pyobj;
  (** [safetensors.torch.load_file(path, device=location)] *)
  safetensors_load_file : string -> string -> exc pyobj;
  (** [__file__] and [os.path.abspath] *)
  module_file : string;
  abspath : string -> string
}.

Definition is_safetensors (ckpt_path : string) : bool :=
  String.eqb (str_lower (snd (splitext ckpt_path))) ".safetensors".

Definition load_state_dict (E : env) (ckpt_path : string) (location : string)
  : io pyobj :=
  run state_dict <-
    (if is_safetensors ckpt_path then
       call (CheckpointRead ckpt_path location)
            (safetensors_load_file E ckpt_path location)
     else
       run d <- call (CheckpointRead ckpt_path location)
                     (torch_load E ckpt_path location);
       lift (get_state_dict d));
  run state_dict <- lift (get_state_dict state_dict);
  emit (Print ("Loaded state_dict from [" ++ ckpt_path ++ "]")) ;;
  io_ret state_dict.

(** The closure of [create_SUPIR_model]; the captured [model] is passed in
    and the updated one returned. *)
Definition load_to_device (E : env) (model : Model E)
  (ckpt_path : option string) : io (Model E) :=
  emit (Printt ("Loading state_dict from [" ++ fmt ckpt_path ++ "]")) ;;
  run found <-
    (match ckpt_path with
     | Some p =>
         if truthy ckpt_path
         then call (PathExists p) (Ok (path_exists E p))
         else io_ret false
     | None => io_ret false
     end);
  match ckpt_path, found with
  | Some p, true =>
      run cuda <- call CudaQuery (Ok (cuda_is_available E));
      let tgt_device := if cuda then "cuda" else "cpu" in
      run state_dict <- load_state_dict E p tgt_device;
      run model <- call (ModelLoadStateDict state_dict)
                        (Model_load_state_dict E model state_dict);
      emit (Printt ("Loaded state_dict from [" ++ p ++ "]")) ;;
      io_ret model
  | _, _ =>
      emit (Printt ("No checkpoint found at [" ++ fmt ckpt_path ++ "]")) ;;
      io_ret model
  end.

Definition sign_allowed (supir_sign : string) : bool :=
  orb (String.eqb supir_sign "F") (String.eqb supir_sign "Q").

Definition create_SUPIR_model (E : env) (config_path : string)
  (supir_sign : option string) (device : string) (ckpt : option string)
  (sampler : string) : io (Model E) :=
  run config <- call (ConfigRead config_path) (OmegaConf_load E config_path);
  run config <- lift (set_sampler_target E config sampler);
  run config <-
    (match ckpt with
     | Some c => if truthy ckpt then lift (set_SDXL_CKPT E config c)
                 else io_ret config
     | None => io_ret config
     end);
  emit (Printt ("Loading model from [" ++ config_path ++ "]")) ;;
  run mc <- lift (get_model E config);
  run model <- call Instantiate (instantiate_from_config E mc);
  emit (Printt ("Loaded model from [" ++ config_path ++ "]")) ;;
  run model <- load_to_device E model (get_SDXL_CKPT E config);
  run model <-
    (match supir_sign with
     | Some sign =>
         if truthy supir_sign then
           lift (py_assert (sign_allowed sign)
                           "supir_sign must be either 'F' or 'Q'") ;;
           let ckpt_path :=
             abspath E (path_join (dirname (module_file E))
                                  [".."; "models"; "v0" ++ sign ++ ".ckpt"]) in
           load_to_device E model (Some ckpt_path)
         else io_ret model
     | None => io_ret model
     end);
  let model := set_sampler E model sampler in
  emit (Printt ("Loaded model config from [" ++ config_path
                ++ "] and moved to " ++ device)) ;;
  io_ret model.

(** The steps of [create_SUPIR_model] that come before the sign is looked
    at: configuration, instantiation and the primary checkpoint. *)
Definition primary_stage (E : env) (config_path : string)
  (ckpt : option string) (sampler : string) : io (Model E) :=
  run config <- call (ConfigRead config_path) (OmegaConf_load E config_path);
  run config <- lift (set_sampler_target E config sampler);
  run config <-
    (match ckpt with
     | Some c => if truthy ckpt then lift (set_SDXL_CKPT E config c)
                 else io_ret config
     | None => io_ret config
     end);
  emit (Printt ("Loading model from [" ++ config_path ++ "]")) ;;
  run mc <- lift (get_model E config);
  run model <- call Instantiate (instantiate_from_config E mc);
  emit (Printt ("Loaded model from [" ++ config_path ++ "]")) ;;
  load_to_device E model (get_SDXL_CKPT E config).

(** The path of the checkpoint a sign selects (line 62). *)
Definition sign_checkpoint_path (E : env) (sign : string) : string :=
  abspath E (path_join (dirname (module_file E))
                       [".."; "models"; "v0" ++ sign ++ ".ckpt"]).

(** The sign handling of [create_SUPIR_model] (lines 60 to 63). *)
Definition sign_stage (E : env) (model : Model E)
  (supir_sign : option string) : io (Model E) :=
  match supir_sign with
  | Some sign =>
      if truthy supir_sign then
        lift (py_assert (sign_allowed sign)
                        "supir_sign must be either 'F' or 'Q'") ;;
        load_to_device E model (Some (sign_checkpoint_path E sign))
      else io_ret model
  | None => io_ret model
  end.

(** The end of [create_SUPIR_model] (lines 65 to 68). *)
Definition final_stage (E : env) (config_path device sampler : string)
  (model : Model E) : io (Model E) :=
  let model := set_sampler E model sampler in
  emit (Printt ("Loaded model config from [" ++ config_path
                ++ "] and moved to " ++ device)) ;;
  io_ret model.

(** ** Arrays, images and tensors *)

(** An n-dimensional array: its shape and its elements in row-major order.
    The element type stands for the dtype. *)
Record ndarray (A : Type) : Type := mk_array {
  shape : list Z;
  data : list A
}.
Arguments mk_array {A} shape data.
Arguments shape {A} n.
Arguments data {A} n.

Definition ndim {A} (x : ndarray A) : nat := List.length (shape x).

(** A NumPy array of one of the two dtypes the module handles. *)
Inductive nparray : Type :=
| U8 (a : ndarray byte)
| F32 (a : ndarray spec_float).

Definition np_shape (x : nparray) : list Z :=
  match x with U8 a => shape a | F32 a => shape a end.

Definition u8_to_Z (b : byte) : Z := Z.of_N (Byte.to_N b).

Definition u8_of_Z (z : Z) : byte :=
  match Byte.of_N (Z.to_N (z mod 256)) with
  | Some b => b
  | None => x00
  end.

Definition u8_to_f32 (b : byte) : spec_float := F32.of_Z (u8_to_Z b).
Definition u8_to_f64 (b : byte) : spec_float := F64.of_Z (u8_to_Z b).

(** [astype(np.uint8)] of a float: truncation toward zero, wrapped; the C
    conversion is undefined on NaN and infinities, which are sent to 0. *)
Definition float_to_u8 (x : spec_float) : byte :=
  match py_int_of_float x with
  | Ok z => u8_of_Z z
  | Raise _ => x00
  end.

(** [clip(0, 255)] of one element: [min(max(x, 0), 255)], NaN kept. *)
Definition clip_0_255 (lo hi x : spec_float) : spec_float :=
  let y := if SFltb x lo then lo else x in
  if SFltb hi y then hi else y.

Definition f32_0 : spec_float := S754_zero false.
Definition f32_1 : spec_float := Eval vm_compute in F32.of_Z 1.
Definition f32_255 : spec_float := Eval vm_compute in F32.of_Z 255.
Definition f32_127_5 : spec_float :=
  Eval vm_compute in F32.div (F32.of_Z 255) (F32.of_Z 2).
Definition f64_1 : spec_float := Eval vm_compute in F64.of_Z 1.
Definition f64_2 : spec_float := Eval vm_compute in F64.of_Z 2.
Definition f64_255 : spec_float := Eval vm_compute in F64.of_Z 255.

(** The elements at positions [i, i + c, i + 2c, ...] of [l] once [i]
    has counted down, i.e. column [k] of rows of length [c]. *)
Fixpoint take_every {A} (c i : nat) (l : list A) : list A :=
  match l with
  | [] => []
  | a :: t =>
      match i with
      | O => a :: take_every c (Nat.pred c) t
      | S i' => take_every c i' t
      end
  end.

(** Rows of length [ncols] turned into columns. *)
Definition transpose_flat {A} (ncols : nat) (l : list A) : list A :=
  List.concat (map (fun k => take_every ncols k l) (seq 0 ncols)).

Fixpoint chunks_fuel {A} (fuel c : nat) (l : list A) : list (list A) :=
  match fuel with
  | O => []
  | S fuel' =>
      match l with
      | [] => []
      | _ => firstn c l :: chunks_fuel fuel' c (skipn c l)
      end
  end.

(** [l] cut into consecutive pieces of length [c]: the vectors along the
    last axis of an array whose last dimension is [c]. *)
Definition chunks {A} (c : nat) (l : list A) : list (list A) :=
  chunks_fuel (List.length l) c l.

(** [x[:, :, lo:hi]] on a 3-dimensional array, [0 <= lo <= hi <= C]. *)
Definition slice_last {A} (lo hi : nat) (x : ndarray A) : ndarray A :=
  match shape x with
  | [H; W; C] =>
      mk_array [H; W; Z.of_nat (hi - lo)]
        (List.concat (map (fun px => firstn (hi - lo) (skipn lo px))
                     (chunks (Z.to_nat C) (data x))))
  | _ => x
  end.

(** [x[:, :, k]] *)
Definition channel {A} (k : nat) (x : ndarray A) : ndarray A :=
  match shape x with
  | [H; W; C] => mk_array [H; W] (take_every (Z.to_nat C) k (data x))
  | _ => x
  end.

(** [x[:, :, None]] on a 2-dimensional array. *)
Definition expand_last {A} (x : ndarray A) : ndarray A :=
  mk_array (shape x ++ [1])%list (data x).

(** [np.concatenate([a, b, c], axis=2)] for three arrays [(H, W, Ca)],
    [(H, W, Cb)], [(H, W, Cc)]; a mismatch of the leading dimensions is a
    [ValueError]. *)
Definition concatenate3_axis2 {A} (a b c : ndarray A) : exc (ndarray A) :=
  match shape a, shape b, shape c with
  | [H; W; Ca], [Hb; Wb; Cb], [Hc; Wc; Cc] =>
      if (H =? Hb) && (H =? Hc) && (W =? Wb) && (W =? Wc) then
        Ok (mk_array [H; W; Ca + Cb + Cc]
              (List.concat (map (fun '(p, q, r) => (p ++ q ++ r)%list)
                 (combine (combine (chunks (Z.to_nat Ca) (data a))
                                   (chunks (Z.to_nat Cb) (data b)))
                          (chunks (Z.to_nat Cc) (data c))))))
      else Raise ValueError
  | _, _, _ => Raise ValueError
  end.

Definition array_map {A B} (f : A -> B) (x : ndarray A) : ndarray B :=
  mk_array (shape x) (map f (data x)).

(** An elementwise binary operation between [(H, W, C)] and [(H, W, 1)],
    the second operand broadcast along the last axis. *)
Definition broadcast_last {A B} (f : A -> B -> A) (x : ndarray A)
  (y : ndarray B) : ndarray A :=
  match shape x with
  | [H; W; C] =>
      mk_array [H; W; C]
        (List.concat (map (fun '(px, v) => map (fun c => f c v) px)
                     (combine (chunks (Z.to_nat C) (data x)) (data y))))
  | _ => x
  end.

Definition HWC3 (x : nparray) : exc (ndarray byte) :=
  match x with
  | F32 _ => Raise (AssertionError "")
  | U8 x =>
      let x := if Nat.eqb (ndim x) 2 then expand_last x else x in
      do _ <- py_assert (Nat.eqb (ndim x) 3) "";
      match shape x with
      | [H; W; C] =>
          do _ <- py_assert ((C =? 1) || (C =? 3) || (C =? 4)) "";
          if C =? 3 then Ok x
          else if C =? 1 then concatenate3_axis2 x x x
          else
            let color := array_map u8_to_f32 (slice_last 0 3 x) in
            let alpha :=
              array_map (fun a => F32.div (u8_to_f32 a) f32_255)
                        (slice_last 3 4 x) in
            let y :=
              broadcast_last F32.add
                (broadcast_last F32.mul color alpha)
                (array_map (fun a => F32.mul f32_255 (F32.sub f32_1 a)) alpha) in
            Ok (array_map (fun v => float_to_u8 (clip_0_255 f32_0 f32_255 v)) y)
      | _ => Raise ValueError
      end
  end.

(** ** PIL images and the resampling kernels *)

Inductive pil_mode : Type := L | LA | RGB | RGBA.

Definition bands (m : pil_mode) : Z :=
  match m with L => 1 | LA => 2 | RGB => 3 | RGBA => 4 end.

(** A decoded image: [size] is (width, height) as in PIL; the samples are
    stored row by row, the bands of a pixel together. *)
Record pil_image : Type := mk_image {
  mode : pil_mode;
  size : Z * Z;
  pixels : list byte
}.

Inductive interpolation : Type := INTER_LANCZOS4 | INTER_AREA.

(** The resampling filters, which the module only calls.  Each returns the
    samples of the resized picture; its dimensions are those asked for. *)
Record kernels : Type := {
  (** [Image.resize((w, h), Image.BICUBIC)] *)
  pil_bicubic : pil_image -> Z -> Z -> list byte;
  (** [cv2.resize(img, (W, H), interpolation=...)] *)
  cv2_resample : forall A : Type, interpolation -> ndarray A -> Z -> Z -> list A;
  (** [torch.nn.functional.interpolate(x, size=(h, w), mode='bicubic')] *)
  torch_bicubic : ndarray spec_float -> Z -> Z -> list spec_float
}.

(** [img.resize((w, h), Image.BICUBIC)]: PIL refuses an empty target. *)
Definition pil_resize (K : kernels) (img : pil_image) (w h : Z)
  : exc pil_image :=
  if (w <? 1) || (h <? 1) then Raise ValueError
  else Ok (mk_image (mode img) (w, h) (pil_bicubic K img w h)).

(** [np.array(img)]: (h, w) for a single band, (h, w, bands) otherwise. *)
Definition np_array (img : pil_image) : ndarray byte :=
  let '(w, h) := size img in
  match mode img with
  | L => mk_array [h; w] (pixels img)
  | m => mk_array [h; w; bands m] (pixels img)
  end.

(** [Image.fromarray(x)] on a uint8 array. *)
Definition fromarray (x : ndarray byte) : exc pil_image :=
  match shape x with
  | [h; w] => Ok (mk_image L (w, h) (data x))
  | [h; w; c] =>
      if c =? 2 then Ok (mk_image LA (w, h) (data x))
      else if c =? 3 then Ok (mk_image RGB (w, h) (data x))
      else if c =? 4 then Ok (mk_image RGBA (w, h) (data x))
      else Raise TypeError
  | _ => Raise TypeError
  end.

(** [x.permute(2, 0, 1)] *)
Definition permute_201 {A} (x : ndarray A) : exc (ndarray A) :=
  match shape x with
  | [d0; d1; d2] =>
      Ok (mk_array [d2; d0; d1] (transpose_flat (Z.to_nat d2) (data x)))
  | _ => Raise RuntimeError
  end.

(** [x.permute(1, 2, 0)] *)
Definition permute_120 {A} (x : ndarray A) : exc (ndarray A) :=
  match shape x with
  | [d0; d1; d2] =>
      Ok (mk_array [d1; d2; d0] (transpose_flat (Z.to_nat (d1 * d2)) (data x)))
  | _ => Raise RuntimeError
  end.

(** [x.unsqueeze(0)] and [x.squeeze(0)] *)
Definition unsqueeze0 {A} (x : ndarray A) : ndarray A :=
  mk_array (1 :: shape x) (data x).

Definition squeeze0 {A} (x : ndarray A) : ndarray A :=
  match shape x with
  | 1 :: rest => mk_array rest (data x)
  | _ => x
  end.

(** [interpolate(x, size=(h, w), mode='bicubic')].  A size of two numbers
    asks for two spatial axes, so an input that is not 4-dimensional is a
    [ValueError]; then torch wants a non-empty tensor (an empty batch is
    allowed, an empty channel or spatial axis is not) and positive sizes on
    both sides, and raises a [RuntimeError] otherwise. *)
Definition interpolate (K : kernels) (x : ndarray spec_float) (h w : Z)
  : exc (ndarray spec_float) :=
  match shape x with
  | [n; c; hin; win] =>
      if (0 <? c) && (0 <? hin) && (0 <? win) && (0 <? h) && (0 <? w)
      then Ok (mk_array [n; c; h; w] (torch_bicubic K x h w))
      else Raise RuntimeError
  | _ => Raise ValueError
  end.

(** [x / 255 * 2 - 1] on one uint8 sample, in float64. *)
Definition normalize_sample (b : byte) : spec_float :=
  F64.sub (F64.mul (F64.div (u8_to_f64 b) f64_255) f64_2) f64_1.

(** [v * 127.5 + 127.5], clipped to [0, 255] and cast, on one float32. *)
Definition denormalize_sample (v : spec_float) : byte :=
  float_to_u8
    (clip_0_255 f32_0 f32_255 (F32.add (F32.mul v f32_127_5) f32_127_5)).

Definition PIL2Tensor (K : kernels) (img : pil_image) (upsacle : pynum)
  (min_size : pynum) (fix_resize : option pynum)
  : exc (ndarray spec_float * Z * Z) :=
  let '(w, h) := size img in
  do w <- py_mul (PInt w) upsacle;
  do h <- py_mul (PInt h) upsacle;
  do w0 <- py_round w;
  do h0 <- py_round h;
  do (w, h) <-
    (if py_lt (py_min w h) min_size then
       do _upscale <- py_truediv min_size (py_min w h);
       do w <- py_mul w _upscale;
       do h <- py_mul h _upscale;
       Ok (w, h)
     else Ok (w, h));
  do (w, h, w0, h0) <-
    (match fix_resize with
     | Some fr =>
         do _upscale <- py_truediv fr (py_min w h);
         do w <- py_mul w _upscale;
         do h <- py_mul h _upscale;
         do w0 <- py_round w;
         do h0 <- py_round h;
         Ok (w, h, w0, h0)
     | None => Ok (w, h, w0, h0)
     end);
  do qw <- py_truediv w (PFloat f64_64);
  do nw <- np_round_int qw;
  let w := nw * 64 in
  do qh <- py_truediv h (PFloat f64_64);
  do nh <- np_round_int qh;
  let h := nh * 64 in
  do x <- pil_resize K img w h;
  (* round, clip and the uint8 cast leave a uint8 array as it is *)
  let x := np_array x in
  let x := array_map normalize_sample x in
  let x := array_map F32.of_F64 x in
  do x <- permute_201 x;
  Ok (x, h0, w0).

Definition Tensor2PIL (K : kernels) (x : ndarray spec_float) (h0 w0 : Z)
  : exc pil_image :=
  let x := unsqueeze0 x in
  do x <- interpolate K x h0 w0;
  do x <- permute_120 (squeeze0 x);
  fromarray (array_map denormalize_sample x).

(** ** Resize helpers on arrays *)

(** [H, W, C = input_image.shape] *)
Definition unpack3 (s : list Z) : exc (Z * Z * Z) :=
  match s with
  | [H; W; C] => Ok (H, W, C)
  | _ => Raise ValueError
  end.

(** [cv2.resize(img, (W, H), interpolation=interp)]: the target must be a
    pair of positive ints, the source non-empty with at most 512 channels
    (OpenCV's CV_CN_MAX); anything else is a [cv2.error].  A single channel
    comes back without its axis.  Then
    [.round().clip(0, 255).astype(np.uint8)]. *)
Definition cv2_resize_shape (s : list Z) (W H : pynum) : exc (list Z) :=
  match W, H with
  | PInt W, PInt H =>
      match s with
      | [Hin; Win; C] =>
          if (0 <? C) && (C <=? 512) && (0 <? Hin) && (0 <? Win)
             && (0 <? W) && (0 <? H)
          then Ok (if C =? 1 then [H; W] else [H; W; C])
          else Raise (ExternalError "cv2.error")
      | _ => Raise (ExternalError "cv2.error")
      end
  | _, _ => Raise (ExternalError "cv2.error")
  end.

Definition int_of (x : pynum) : Z :=
  match x with PInt z => z | PFloat _ => 0 end.

Definition round_clip_u8 (v : spec_float) : byte :=
  float_to_u8 (clip_0_255 f32_0 f32_255
                 (match v with
                  | S754_finite s m e =>
                      F32.normalize
                        (cond_Zopp s (round_half_even_mag (Zpos m) e)) 0 s
                  | _ => v
                  end)).

Definition cv2_resize_u8 (K : kernels) (input_image : nparray) (W H : pynum)
  (interp : interpolation) : exc (ndarray byte) :=
  do s <- cv2_resize_shape (np_shape input_image) W H;
  match input_image with
  | U8 a =>
      Ok (mk_array s (cv2_resample K byte interp a (int_of W) (int_of H)))
  | F32 a =>
      Ok (mk_array s
            (map round_clip_u8
                 (cv2_resample K spec_float interp a (int_of W) (int_of H))))
  end.

(** The target size and the filter [upscale_image] hands to [cv2.resize]. *)
Definition upscale_image_args (s : list Z) (upscale : pynum)
  (min_size : option pynum) (unit_resolution : pynum)
  : exc (pynum * pynum * interpolation) :=
  do (H, W, C) <- unpack3 s;
  do H <- py_float (PInt H);
  do W <- py_float (PInt W);
  do H <- py_mul (PFloat H) upscale;
  do W <- py_mul (PFloat W) upscale;
  do (H, W) <-
    (match min_size with
     | Some ms =>
         if py_lt (py_min H W) ms then
           do _upsacle <- py_truediv ms (py_min W H);
           do W <- py_mul W _upsacle;
           do H <- py_mul H _upsacle;
           Ok (H, W)
         else Ok (H, W)
     | None => Ok (H, W)
     end);
  do qh <- py_truediv H unit_resolution;
  do nh <- np_round_int qh;
  do H <- py_mul (PInt nh) unit_resolution;
  do qw <- py_truediv W unit_resolution;
  do nw <- np_round_int qw;
  do W <- py_mul (PInt nw) unit_resolution;
  Ok (W, H, if py_gt upscale (PInt 1) then INTER_LANCZOS4 else INTER_AREA).

Definition upscale_image (K : kernels) (input_image : nparray)
  (upscale : pynum) (min_size : option pynum) (unit_resolution : pynum)
  : exc (ndarray byte) :=
  do (W, H, interp) <-
    upscale_image_args (np_shape input_image) upscale min_size unit_resolution;
  cv2_resize_u8 K input_image W H interp.

(** The scale factor [fix_resize] computes, then its target and filter. *)
Definition fix_resize_upscale (s : list Z) (size : pynum) : exc pynum :=
  do (H, W, C) <- unpack3 s;
  do H <- py_float (PInt H);
  do W <- py_float (PInt W);
  py_truediv size (py_min (PFloat H) (PFloat W)).

Definition fix_resize_args (s : list Z) (size : pynum)
  (unit_resolution : pynum) : exc (pynum * pynum * interpolation) :=
  do (H, W, C) <- unpack3 s;
  do H <- py_float (PInt H);
  do W <- py_float (PInt W);
  do upscale <- py_truediv size (py_min (PFloat H) (PFloat W));
  do H <- py_mul (PFloat H) upscale;
  do W <- py_mul (PFloat W) upscale;
  do qh <- py_truediv H unit_resolution;
  do nh <- np_round_int qh;
  do H <- py_mul (PInt nh) unit_resolution;
  do qw <- py_truediv W unit_resolution;
  do nw <- np_round_int qw;
  do W <- py_mul (PInt nw) unit_resolution;
  Ok (W, H, if py_gt upscale (PInt 1) then INTER_LANCZOS4 else INTER_AREA).

Definition fix_resize (K : kernels) (input_image : nparray) (size : pynum)
  (unit_resolution : pynum) : exc (ndarray byte) :=
  do (W, H, interp) <-
    fix_resize_args (np_shape input_image) size unit_resolution;
  cv2_resize_u8 K input_image W H interp.

(** ** Precision names *)

Inductive torch_dtype : Type := float32 | float16 | bfloat16.

Definition convert_dtype (dtype_str : string) : exc torch_dtype :=
  if String.eqb dtype_str "fp32" then Ok float32
  else if String.eqb dtype_str "fp16" then Ok float16
  else if String.eqb dtype_str "bf16" then Ok bfloat16
  else Raise NotImplementedError.

(** ** Array to tensor and back *)

Definition f32_2 : spec_float := Eval vm_compute in F32.of_Z 2.

(** [v / 255 * 2 - 1] on one float32 sample: a float32 array keeps its
    dtype against Python scalars. *)
Definition normalize_sample_f32 (v : spec_float) : spec_float :=
  F32.sub (F32.mul (F32.div v f32_255) f32_2) f32_1.

Definition Numpy2Tensor (img : nparray) : exc (ndarray spec_float) :=
  let img :=
    match img with
    | U8 a => array_map F32.of_F64 (array_map normalize_sample a)
    | F32 a => array_map normalize_sample_f32 a
    end in
  permute_201 img.

Definition Tensor2Numpy (K : kernels) (x : ndarray spec_float)
  (h0 w0 : option Z) : exc (ndarray byte) :=
  do x <-
    (match h0, w0 with
     | Some h0, Some w0 =>
         let x := unsqueeze0 x in
         do x <- interpolate K x h0 w0;
         Ok (squeeze0 x)
     | _, _ => Ok x
     end);
  do x <- permute_120 x;
  Ok (array_map denormalize_sample x).

(** ** One sample of the alpha compositing of [HWC3] *)

(** What the 4-channel branch of [HWC3] does to a colour sample [c] of a
    pixel whose alpha sample is [a]. *)
Definition blend_sample (c a : byte) : byte :=
  float_to_u8
    (clip_0_255 f32_0 f32_255
       (F32.add
          (F32.mul (u8_to_f32 c) (F32.div (u8_to_f32 a) f32_255))
          (F32.mul f32_255
             (F32.sub f32_1 (F32.div (u8_to_f32 a) f32_255))))).

(** The three colour samples of an RGBA pixel, composited. *)
Definition blend_pixel (px : list byte) : list byte :=
  map (fun c => blend_sample c (nth 3 px x00)) (firstn 3 px).

(** The 256 values of a uint8 sample. *)
Definition all_bytes : list byte :=
  map (fun n => u8_of_Z (Z.of_nat n)) (seq 0 256).

(** A float between -1 and 1, ends included. *)
Definition in_unit_range (v : spec_float) : bool :=
  SFleb (SFopp f32_1) v && SFleb v f32_1.

(** ** Concrete collaborators, used to run the definitions *)

(** Kernels that paint every resized picture with one value. *)
Definition flat_kernels : kernels :=
  {| pil_bicubic := fun img w h =>
       repeat x80 (Z.to_nat (w * h * bands (mode img)));
     cv2_resample := fun A _ a W H =>
       match data a with
       | v :: _ =>
           repeat v (Z.to_nat (W * H * nth 2 (shape a) 1))
       | [] => []
       end;
     torch_bicubic := fun x h w =>
       repeat f32_0 (Z.to_nat (nth 0 (shape x) 1 * nth 1 (shape x) 1 * h * w))
  |}.

(** A checkpoint wrapped twice, as some trainers write it. *)
Definition weights : pyobj := PDict [("conv.weight", PTensor 1)].
Definition wrapped_twice : pyobj :=
  PDict [("epoch", PTensor 0);
         ("state_dict", PDict [("state_dict", weights)])].
Definition flat_with_key : pyobj :=
  PDict [("conv.weight", PTensor 1); ("state_dict", PTensor 2)].

(** A small world: the configuration names "sdxl.ckpt", which exists; the
    model is the list of state dictionaries loaded into it so far. *)
Definition toy_env : env :=
  {| Config := option string;
     ModelConfig := unit;
     Model := list pyobj * string;
     OmegaConf_load := fun _ => Ok (Some "sdxl.ckpt");
     set_sampler_target := fun c _ => Ok c;
     set_SDXL_CKPT := fun _ v => Ok (Some v);
     get_model := fun _ => Ok tt;
     get_SDXL_CKPT := fun c => c;
     instantiate_from_config := fun _ => Ok ([], "");
     Model_load_state_dict := fun m sd => Ok ((fst m ++ [sd])%list, snd m);
     set_sampler := fun m v => (fst m, v);
     path_exists := fun p => String.eqb p "sdxl.ckpt";
     cuda_is_available := false;
     torch_load := fun _ _ => Ok wrapped_twice;
     safetensors_load_file := fun _ _ => Ok flat_with_key;
     module_file := "/opt/SUPIR/SUPIR/util.py";
     abspath := fun p => p |}.

(** A 40 x 48 RGB picture, and the tensor PIL2Tensor makes of it when the
    shorter side must reach 64. *)
Definition demo_image : pil_image :=
  mk_image RGB (40, 48) (repeat x80 (40 * 48 * 3)).

Definition demo_tensor : ndarray spec_float :=
  match PIL2Tensor flat_kernels demo_image (PInt 1) (PInt 64) None with
  | Ok (x, _, _) => x
  | Raise _ => mk_array [] []
  end.

(** A picture of one pixel, and the factor 0.4 as a float. *)
Definition one_pixel : pil_image := mk_image RGB (1, 1) [x10; x20; x30].

Definition f64_0_4 : spec_float :=
  Eval vm_compute in F64.div (F64.of_Z 2) (F64.of_Z 5).

(** The factor 1.005 as a float. *)
Definition f64_1_005 : spec_float :=
  Eval vm_compute in F64.div (F64.of_Z 201) (F64.of_Z 200).

(** A 1 x 2 RGBA picture with partial alpha, and what HWC3 makes of it. *)
Definition demo_rgba : ndarray byte :=
  mk_array [1; 2; 4] [xff; x20; x30; x41; x01; x02; x03; x80].

Definition demo_rgba_out : ndarray byte :=
  match HWC3 (U8 demo_rgba) with
  | Ok y => y
  | Raise _ => mk_array [] []
  end.

(** A 10 x 20 RGB array. *)
Definition demo_array : ndarray byte :=
  mk_array [10; 20; 3] (repeat x80 (10 * 20 * 3)).

(** A world whose two readers answer [tl] and [sl] for every file, in which
    a path exists according to [ex], and whose configuration names the
    primary checkpoint [primary]. *)
Definition env_with (tl sl : exc pyobj) (ex : string -> bool)
  (primary : option string) : env :=
  {| Config := option string;
     ModelConfig := unit;
     Model := list pyobj * string;
     OmegaConf_load := fun _ => Ok primary;
     set_sampler_target := fun c _ => Ok c;
     set_SDXL_CKPT := fun _ v => Ok (Some v);
     get_model := fun _ => Ok tt;
     get_SDXL_CKPT := fun c => c;
     instantiate_from_config := fun _ => Ok ([], "");
     Model_load_state_dict := fun m sd => Ok ((fst m ++ [sd])%list, snd m);
     set_sampler := fun m v => (fst m, v);
     path_exists := ex;
     cuda_is_available := true;
     torch_load := fun _ _ => tl;
     safetensors_load_file := fun _ _ => sl;
     module_file := "/opt/SUPIR/SUPIR/util.py";
     abspath := fun p => p |}.

(** An event that reads a checkpoint or loads one into the model. *)
Definition touches_checkpoint (e : event) : bool :=
  match e with
  | CheckpointRead _ _ | ModelLoadStateDict _ => true
  | _ => false
  end.

(** A world in which the model cannot be instantiated. *)
Definition no_target_env : env :=
  {| Config := unit; ModelConfig := unit; Model := unit;
     OmegaConf_load := fun _ => Ok tt;
     set_sampler_target := fun c _ => Ok c;
     set_SDXL_CKPT := fun c _ => Ok c;
     get_model := fun _ => Ok tt;
     get_SDXL_CKPT := fun _ => Some "sdxl.ckpt";
     instantiate_from_config := fun _ => Raise (ExternalError "no target");
     Model_load_state_dict := fun m _ => Ok m;
     set_sampler := fun m _ => m;
     path_exists := fun _ => true;
     cuda_is_available := true;
     torch_load := fun _ _ => Ok weights;
     safetensors_load_file := fun _ _ => Ok weights;
     module_file := "util.py";
     abspath := fun p => p |}.

(** A string in which the character [c] does not occur, and a string made
    of dots only. *)
Definition free_of (c : ascii) (s : string) : bool :=
  forallb (fun a => negb (Ascii.eqb a c)) (list_ascii_of_string s).

Definition only_dots (s : string) : bool :=
  forallb (Ascii.eqb ".") (list_ascii_of_string s).

(** ** What the claims of the specification say, as predicates *)



(** "Converting a decoded image to tensor and back at the pre-quantization
    dimensions preserves dimensions exactly". *)
Definition round_trip_keeps_dims (K : kernels) (img : pil_image)
  (upsacle min_size : pynum) (fix_resize : option pynum) : Prop :=
  forall x h0 w0,
    PIL2Tensor K img upsacle min_size fix_resize = Ok (x, h0, w0) ->
    exists out, Tensor2PIL K x h0 w0 = Ok out /\ size out = (w0, h0).

(** "The resize is an upscale" / "a downscale", on both axes. *)
Definition is_upscale (s : list Z) (W H : Z) : Prop :=
  match s with
  | [Hin; Win; _] => Hin < H /\ Win < W
  | _ => False
  end.

Definition is_downscale (s : list Z) (W H : Z) : Prop :=
  match s with
  | [Hin; Win; _] => H < Hin /\ W < Win
  | _ => False
  end.

(** "Lanczos exactly when the resize is an upscale, area exactly when it is
    a downscale". *)
Definition filter_follows_direction (s : list Z)
  (r : exc (pynum * pynum * interpolation)) : Prop :=
  forall W H interp, r = Ok (PInt W, PInt H, interp) ->
    (interp = INTER_LANCZOS4 <-> is_upscale s W H) /\
    (interp = INTER_AREA <-> is_downscale s W H).

(** * Properties *)

(** ** Precision names *)

(** C9: convert_dtype sends 'fp32', 'fp16' and 'bf16' to three pairwise
    distinct precision identifiers and raises NotImplementedError on every
    other string. *)
Theorem convert_dtype_spec :
  (exists a b c,
     convert_dtype "fp32" = Ok a /\ convert_dtype "fp16" = Ok b /\
     convert_dtype "bf16" = Ok c /\ a <> b /\ a <> c /\ b <> c) /\
  (forall s, s <> "fp32" -> s <> "fp16" -> s <> "bf16" ->
     convert_dtype s = Raise NotImplementedError).
Proof.
  split.
  - exists float32, float16, bfloat16; repeat split; discriminate.
  - intros s H32 H16 Hbf. unfold convert_dtype.
    apply String.eqb_neq in H32, H16, Hbf.
    now rewrite H32, H16, Hbf.
Qed.

Lemma convert_dtype_spec_witness :
  convert_dtype "int8" = Raise NotImplementedError.
Proof.
  apply (proj2 convert_dtype_spec "int8"); discriminate.
Defined.

(** ** Checkpoint loading *)

Lemma get_state_dict_wrapped items v :
  assoc "state_dict" items = Some v ->
  get_state_dict (PDict items) = Ok v.
Proof. intros H. unfold get_state_dict, dict_get. now rewrite H. Qed.

Lemma get_state_dict_plain items :
  assoc "state_dict" items = None ->
  get_state_dict (PDict items) = Ok (PDict items).
Proof. intros H. unfold get_state_dict, dict_get. now rewrite H. Qed.

(** C10: on the non-safetensors path the 'state_dict' wrapper is taken off
    twice, so a mapping nested two levels deep yields the innermost value;
    after the safetensors path it is taken off once, so a flat mapping that
    has a 'state_dict' key yields the value under that key, not itself. *)
Theorem load_state_dict_unwraps (E : env) (p loc : string) :
  (forall outer mid inner,
     is_safetensors p = false ->
     torch_load E p loc = Ok (PDict outer) ->
     assoc "state_dict" outer = Some (PDict mid) ->
     assoc "state_dict" mid = Some inner ->
     load_state_dict E p loc =
       ([CheckpointRead p loc; Print ("Loaded state_dict from [" ++ p ++ "]")],
        Ok inner)) /\
  (forall items v,
     is_safetensors p = true ->
     safetensors_load_file E p loc = Ok (PDict items) ->
     assoc "state_dict" items = Some v ->
     load_state_dict E p loc =
       ([CheckpointRead p loc; Print ("Loaded state_dict from [" ++ p ++ "]")],
        Ok v)).
Proof.
  split.
  - intros outer mid inner Hext Hload Houter Hmid.
    unfold load_state_dict. rewrite Hext. unfold call. rewrite Hload.
    cbn [io_bind lift]. rewrite (get_state_dict_wrapped _ _ Houter).
    cbn [io_bind lift app]. rewrite (get_state_dict_wrapped _ _ Hmid).
    reflexivity.
  - intros items v Hext Hload Hkey.
    unfold load_state_dict. rewrite Hext. unfold call. rewrite Hload.
    cbn [io_bind lift]. rewrite (get_state_dict_wrapped _ _ Hkey).
    reflexivity.
Qed.

Lemma load_state_dict_unwraps_witness :
  load_state_dict toy_env "sdxl.ckpt" "cpu" =
    ([CheckpointRead "sdxl.ckpt" "cpu";
      Print "Loaded state_dict from [sdxl.ckpt]"], Ok weights) /\
  load_state_dict toy_env "m.SafeTensors" "cpu" =
    ([CheckpointRead "m.SafeTensors" "cpu";
      Print "Loaded state_dict from [m.SafeTensors]"], Ok (PTensor 2)).
Proof.
  split.
  - apply (proj1 (load_state_dict_unwraps toy_env "sdxl.ckpt" "cpu")
             [("epoch", PTensor 0);
              ("state_dict", PDict [("state_dict", weights)])]
             [("state_dict", weights)] weights); reflexivity.
  - apply (proj2 (load_state_dict_unwraps toy_env "m.SafeTensors" "cpu")
             [("conv.weight", PTensor 1); ("state_dict", PTensor 2)]
             (PTensor 2)); reflexivity.
Defined.

(** ** Model construction *)

Lemma io_bind_assoc {A B C} (m : io A) (f : A -> io B) (g : B -> io C) :
  io_bind (io_bind m f) g = io_bind m (fun a => io_bind (f a) g).
Proof.
  destruct m as [t [a|e]]; cbn [io_bind]; [|reflexivity].
  destruct (f a) as [t1 [b|e]]; cbn [io_bind]; [|reflexivity].
  destruct (g b) as [t2 r]. now rewrite app_assoc.
Qed.

Lemma io_bind_ext {A B} (m : io A) (f g : A -> io B) :
  (forall a, f a = g a) -> io_bind m f = io_bind m g.
Proof.
  intros H. destruct m as [t [a|e]]; cbn [io_bind]; [|reflexivity].
  now rewrite H.
Qed.

Lemma io_bind_raise {A B} (e : pyerr) (k : A -> io B) :
  io_bind (lift (Raise e)) k = lift (Raise e).
Proof. reflexivity. Qed.



(** C3: when the path handed to the load step does not exist, the step logs
    two lines, reads no checkpoint, raises nothing and hands the model back
    as it was.  The same holds when there is no path at all. *)
Theorem load_to_device_missing (E : env) (model : Model E) (p : string) :
  path_exists E p = false ->
  exists t,
    load_to_device E model (Some p) = (t, Ok model) /\
    In (Printt ("No checkpoint found at [" ++ p ++ "]")) t /\
    (forall e, In e t ->
       match e with
       | CheckpointRead _ _ | ModelLoadStateDict _ => False
       | _ => True
       end).
Proof.
  intros Hmiss. unfold load_to_device, truthy.
  destruct (String.eqb p "") eqn:Hp; cbn [negb fmt].
  - eexists; split; [reflexivity|]. cbn. split; [tauto|].
    intros e [<-|[<-|[]]]; exact I.
  - unfold call. rewrite Hmiss.
    eexists; split; [reflexivity|]. cbn. split; [tauto|].
    intros e [<-|[<-|[<-|[]]]]; exact I.
Qed.

Lemma load_to_device_missing_witness :
  exists t,
    load_to_device toy_env ([], "") (Some "/opt/SUPIR/models/v0Q.ckpt")
    = (t, Ok ([], "")) /\
    In (Printt "No checkpoint found at [/opt/SUPIR/models/v0Q.ckpt]") t /\
    (forall e, In e t ->
       match e with
       | CheckpointRead _ _ | ModelLoadStateDict _ => False
       | _ => True
       end).
Proof.
  apply (load_to_device_missing toy_env ([], "") "/opt/SUPIR/models/v0Q.ckpt").
  reflexivity.
Defined.

Lemma load_to_device_none (E : env) (model : Model E) :
  load_to_device E model None =
    ([Printt "Loading state_dict from [None]";
      Printt "No checkpoint found at [None]"], Ok model).
Proof. reflexivity. Qed.




(** ** Channel normalisation *)

Section Chunks.
Context {A : Type}.

Lemma chunks_fuel_concat (c : nat) (ls : list (list A)) :
  (0 < c)%nat ->
  Forall (fun p => List.length p = c) ls ->
  forall fuel, (List.length ls <= fuel)%nat ->
  chunks_fuel fuel c (List.concat ls) = ls.
Proof.
  intros Hc Hall. induction Hall as [|p ls Hp Hall IH]; intros fuel Hfuel.
  - destruct fuel; reflexivity.
  - destruct fuel as [|fuel]; [cbn in Hfuel; lia|].
    cbn [List.concat chunks_fuel].
    destruct (p ++ List.concat ls)%list eqn:Hnil.
    + apply (f_equal (@List.length A)) in Hnil.
      rewrite length_app in Hnil. cbn in Hnil. lia.
    + rewrite <- Hnil. rewrite <- Hp at 1 3.
      rewrite firstn_app, Nat.sub_diag, firstn_all. cbn [firstn].
      rewrite app_nil_r, skipn_app, Nat.sub_diag, skipn_all. cbn [skipn app].
      rewrite IH; [reflexivity|]. cbn in Hfuel. lia.
Qed.

Lemma length_concat_uniform (c : nat) (ls : list (list A)) :
  Forall (fun p => List.length p = c) ls ->
  List.length (List.concat ls) = (c * List.length ls)%nat.
Proof.
  induction 1 as [|p ls Hp _ IH]; [cbn; lia|].
  cbn [List.concat List.length]. rewrite length_app, IH, Hp. lia.
Qed.

Lemma chunks_concat (c : nat) (ls : list (list A)) :
  (0 < c)%nat ->
  Forall (fun p => List.length p = c) ls ->
  chunks c (List.concat ls) = ls.
Proof.
  intros Hc Hall. unfold chunks.
  apply chunks_fuel_concat; trivial.
  rewrite (length_concat_uniform c ls Hall). nia.
Qed.

(** Every list whose length is a multiple of [c] is made of pieces of
    length [c]. *)
Lemma pieces_of_length (c n : nat) : forall l : list A,
  List.length l = (c * n)%nat ->
  exists ls, l = List.concat ls /\ Forall (fun p => List.length p = c) ls
             /\ List.length ls = n.
Proof.
  induction n as [|n IH]; intros l Hl.
  - exists []. rewrite Nat.mul_0_r in Hl.
    apply length_zero_iff_nil in Hl. subst. repeat split; constructor.
  - destruct (IH (skipn c l)) as (ls & Hls & Hall & Hlen).
    { rewrite length_skipn. lia. }
    exists (firstn c l :: ls). cbn [List.concat].
    rewrite <- Hls, firstn_skipn. repeat split.
    + constructor; [|exact Hall]. rewrite length_firstn. lia.
    + cbn. now rewrite Hlen.
Qed.

Lemma take_every_skip (c : nat) (rest : list A) : forall p i,
  (List.length p <= i)%nat ->
  take_every c i (p ++ rest) = take_every c (i - List.length p) rest.
Proof.
  induction p as [|a p IH]; intros i Hi.
  - cbn. now rewrite Nat.sub_0_r.
  - destruct i as [|i]; [cbn in Hi; lia|].
    cbn [app take_every List.length]. rewrite IH by (cbn in Hi; lia).
    reflexivity.
Qed.

Lemma take_every_piece (c : nat) (d : A) (rest : list A) : forall p i,
  (i < List.length p)%nat -> (List.length p <= c)%nat ->
  take_every c i (p ++ rest)
  = nth i p d :: take_every c (c - List.length p + i) rest.
Proof.
  induction p as [|a p IH]; intros i Hi Hc; [cbn in Hi; lia|].
  destruct i as [|i]; cbn [app take_every nth List.length].
  - rewrite take_every_skip by (cbn in Hc; lia).
    do 2 f_equal. cbn in Hc. lia.
  - rewrite IH by (cbn in Hi, Hc; lia).
    do 2 f_equal. cbn in Hc. lia.
Qed.

Lemma take_every_concat (c k : nat) (d : A) (ls : list (list A)) :
  (k < c)%nat ->
  Forall (fun p => List.length p = c) ls ->
  take_every c k (List.concat ls) = map (fun p => nth k p d) ls.
Proof.
  intros Hk. induction 1 as [|p ls Hp _ IH]; [reflexivity|].
  cbn [List.concat map].
  rewrite (take_every_piece c d) by lia.
  rewrite Hp, Nat.sub_diag, Nat.add_0_l, IH. reflexivity.
Qed.
End Chunks.

Lemma chunks_singletons {A} (d : list A) :
  chunks 1 d = map (fun v => [v]) d.
Proof.
  unfold chunks. induction d as [|a d IH]; [reflexivity|].
  cbn [List.length chunks_fuel firstn skipn map]. now rewrite IH.
Qed.

Lemma triple_concat {A} (d : list A) :
  List.concat
    (map (fun '(p, q, r) => (p ++ q ++ r)%list)
       (combine (combine (map (fun v => [v]) d) (map (fun v => [v]) d))
                (map (fun v => [v]) d)))
  = List.concat (map (fun v => [v; v; v]) d).
Proof. induction d as [|a d IH]; [reflexivity|]. cbn. now rewrite IH. Qed.

Lemma triple_channel {A} (k : nat) (d : list A) :
  (k < 3)%nat ->
  take_every 3 k (List.concat (map (fun v => [v; v; v]) d)) = d.
Proof.
  intros Hk. destruct d as [|a d]; [reflexivity|].
  rewrite (take_every_concat 3 k a) by
    (trivial; apply Forall_forall; intros p Hp; apply in_map_iff in Hp;
     destruct Hp as (v & <- & _); reflexivity).
  rewrite map_map.
  destruct k as [|[|[|k]]]; try lia; cbn [nth]; apply map_id.
Qed.

(** C8: on a 2-dimensional uint8 array of shape (H, W), HWC3 returns an
    array of shape (H, W, 3) each of whose three channels is the input. *)
Theorem HWC3_gray (H W : Z) (d : list byte) :
  exists y,
    HWC3 (U8 (mk_array [H; W] d)) = Ok y /\
    shape y = [H; W; 3] /\
    channel 0 y = mk_array [H; W] d /\
    channel 1 y = mk_array [H; W] d /\
    channel 2 y = mk_array [H; W] d.
Proof.
  unfold HWC3. cbn -[concatenate3_axis2].
  unfold concatenate3_axis2, expand_last. cbn [shape data app].
  rewrite !Z.eqb_refl. cbn [andb].
  change (Z.to_nat 1) with 1%nat.
  rewrite chunks_singletons, triple_concat.
  eexists. split; [reflexivity|]. split; [reflexivity|].
  unfold channel. cbn [shape data]. change (Z.to_nat (1 + 1 + 1)) with 3%nat.
  rewrite !triple_channel by lia. repeat split.
Qed.

Lemma blend_opaque_sample (c : byte) :
  float_to_u8
    (clip_0_255 f32_0 f32_255
       (F32.add
          (F32.mul (u8_to_f32 c) (F32.div (u8_to_f32 xff) f32_255))
          (F32.mul f32_255
             (F32.sub f32_1 (F32.div (u8_to_f32 xff) f32_255))))) = c.
Proof. destruct c; vm_compute; reflexivity. Qed.

Lemma broadcast_rows_length {A B} (f : A -> B -> A) (c : nat)
  (ls : list (list A)) (ys : list B) :
  Forall (fun p => List.length p = c) ls ->
  Forall (fun p => List.length p = c)
    (map (fun '(px, v) => map (fun a => f a v) px) (combine ls ys)).
Proof.
  intros Hall. revert ys.
  induction Hall as [|p ls Hp _ IH]; intros [|y ys]; cbn; constructor.
  - now rewrite length_map.
  - apply IH.
Qed.

Lemma map_rows_length {A B} (f : list A -> list B) (c c' : nat)
  (ls : list (list A)) :
  (forall p, List.length p = c -> List.length (f p) = c') ->
  Forall (fun p => List.length p = c) ls ->
  Forall (fun p => List.length p = c') (map f ls).
Proof.
  intros Hf. induction 1 as [|p ls Hp _ IH]; cbn; constructor; auto.
Qed.

(** C7: on a 4-channel uint8 array whose alpha channel is 255 everywhere,
    HWC3 returns the first three channels, sample for sample. *)
Theorem HWC3_opaque (x : ndarray byte) (H W : Z) :
  shape x = [H; W; 4] ->
  Z.of_nat (List.length (data x)) = H * W * 4 ->
  Forall (fun a => a = xff) (data (channel 3 x)) ->
  HWC3 (U8 x) = Ok (slice_last 0 3 x).
Proof.
  destruct x as [sh dat]. cbn [shape data]. intros -> Hlen Halpha.
  destruct (pieces_of_length 4 (Z.to_nat (H * W)) dat) as (ls & -> & Hall & _);
    [lia|].
  unfold channel in Halpha. cbn [shape data] in Halpha.
  change (Z.to_nat 4) with 4%nat in Halpha.
  rewrite (take_every_concat 4 3 xff) in Halpha by (trivial; lia).
  unfold HWC3, ndim, slice_last, broadcast_last, array_map.
  cbn [shape data List.length Nat.eqb py_assert exc_bind Z.eqb Pos.eqb orb].
  change (Z.to_nat 4) with 4%nat.
  rewrite !(chunks_concat 4 ls) by (trivial; lia).
  change (Z.to_nat (Z.of_nat (3 - 0))) with 3%nat.
  cbn [Nat.sub skipn].
  rewrite (concat_map u8_to_f32), map_map.
  assert (Hrgb : Forall (fun p => List.length p = 3%nat)
                   (map (fun px => map u8_to_f32 (firstn 3 px)) ls)).
  { apply (map_rows_length _ 4 3); [|exact Hall].
    intros p Hp. rewrite length_map, length_firstn. lia. }
  rewrite (chunks_concat 3 _ ltac:(lia) Hrgb).
  rewrite (chunks_concat 3) by
    (try lia; apply broadcast_rows_length; exact Hrgb).
  do 2 f_equal. clear Hrgb Hlen.
  induction Hall as [|p ls Hp Hall IH]; [reflexivity|].
  inversion Halpha as [|a ? Ha Hrest]; subst.
  destruct p as [|r [|g [|b [|a [|]]]]]; try discriminate Hp.
  cbn [nth] in Ha. subst a.
  cbn [map List.concat combine firstn skipn app].
  rewrite !blend_opaque_sample. do 3 f_equal.
  exact (IH Hrest).
Qed.

Lemma HWC3_opaque_witness :
  HWC3 (U8 (mk_array [1; 2; 4] [x10; x20; x30; xff; x01; x02; x03; xff]))
  = Ok (slice_last 0 3
          (mk_array [1; 2; 4] [x10; x20; x30; xff; x01; x02; x03; xff])).
Proof.
  apply (HWC3_opaque _ 1 2); [reflexivity | reflexivity |].
  repeat constructor.
Defined.

(** ** Image to tensor and back *)

(** Inversion of a successful [do] step. *)
Ltac bind_inv H :=
  match type of H with
  | exc_bind ?m _ = Ok _ =>
      let E := fresh "E" in
      destruct m eqn:E; cbn [exc_bind] in H; [|discriminate H]
  end.

Ltac split_pairs H :=
  repeat match type of H with
         | context [let '(_, _) := ?p in _] => is_var p; destruct p
         end.

Lemma pil_resize_ok K img w h out :
  pil_resize K img w h = Ok out ->
  1 <= w /\ 1 <= h /\ mode out = mode img /\ size out = (w, h).
Proof.
  unfold pil_resize. destruct (w <? 1) eqn:Hw; destruct (h <? 1) eqn:Hh;
    cbn [orb]; intros Heq; try discriminate Heq.
  injection Heq as <-. cbn. repeat split; lia.
Qed.

Lemma PIL2Tensor_shape K img u ms fr x h0 w0 :
  PIL2Tensor K img u ms fr = Ok (x, h0, w0) ->
  exists nw nh,
    shape x = [bands (mode img); nh * 64; nw * 64] /\
    1 <= nh * 64 /\ 1 <= nw * 64 /\ mode img <> L.
Proof.
  unfold PIL2Tensor. destruct (size img) as [w h]. intros Hrun.
  repeat (bind_inv Hrun; split_pairs Hrun).
  match goal with Hr : pil_resize _ _ _ _ = Ok ?out |- _ =>
    destruct (pil_resize_ok _ _ _ _ _ Hr) as (Hw & Hh & Hmode & Hsize);
    rename out into resized end.
  injection Hrun as <- <- <-.
  match goal with Hp : permute_201 _ = Ok _ |- _ =>
    unfold permute_201, array_map, np_array in Hp;
    rewrite Hsize, Hmode in Hp; cbn [shape] in Hp end.
  match goal with Hp : _ = Ok ?a |- context [shape ?a] =>
    destruct (mode img) eqn:Hm; cbn [shape data] in Hp;
      try discriminate Hp; injection Hp as <- end;
    cbn [shape bands]; eexists _, _; repeat split; eauto; discriminate.
Qed.

Lemma PIL2Tensor_default_dims K img ms x h0 w0 :
  PIL2Tensor K img (PInt 1) ms None = Ok (x, h0, w0) ->
  (w0, h0) = size img.
Proof.
  unfold PIL2Tensor. destruct (size img) as [w h].
  cbn [py_mul py_round exc_bind]. intros Hrun.
  bind_inv Hrun. split_pairs Hrun.
  repeat (bind_inv Hrun; split_pairs Hrun).
  injection Hrun as _ <- <-. f_equal; lia.
Qed.

Lemma Tensor2PIL_size K x C H W h0 w0 :
  shape x = [C; H; W] ->
  2 <= C <= 4 -> 0 < H -> 0 < W -> 0 < h0 -> 0 < w0 ->
  exists out, Tensor2PIL K x h0 w0 = Ok out /\ size out = (w0, h0).
Proof.
  intros Hs HC HH HW Hh0 Hw0.
  unfold Tensor2PIL, unsqueeze0, interpolate. rewrite Hs.
  cbn [shape].
  apply Z.ltb_lt in HH, HW, Hh0, Hw0. rewrite HH, HW, Hh0, Hw0.
  assert (HCs : C = 2 \/ C = 3 \/ C = 4) by lia.
  destruct HCs as [-> | [-> | ->]];
    cbn [Z.ltb Z.compare andb exc_bind squeeze0 shape data permute_120
         fromarray array_map Z.eqb Pos.eqb];
    eexists; split; reflexivity.
Qed.

(** C1: whenever PIL2Tensor returns, the tensor is channel-first and its
    height and width (its last two dimensions) are positive multiples of 64,
    whatever the image, the upscale factor, the minimum size and the forced
    size. *)
Theorem PIL2Tensor_multiple_of_64 (K : kernels) (img : pil_image)
  (upsacle min_size : pynum) (fix_resize : option pynum)
  (x : ndarray spec_float) (h0 w0 : Z) :
  PIL2Tensor K img upsacle min_size fix_resize = Ok (x, h0, w0) ->
  exists C H W,
    shape x = [C; H; W] /\ C = bands (mode img) /\
    (64 | H) /\ (64 | W) /\ 0 < H /\ 0 < W.
Proof.
  intros Hrun.
  destruct (PIL2Tensor_shape _ _ _ _ _ _ _ _ Hrun)
    as (nw & nh & Hs & Hh & Hw & _).
  exists (bands (mode img)), (nh * 64), (nw * 64).
  repeat split; trivial; try lia; apply Z.divide_factor_r.
Qed.

(** C4, as the code has it: when the two target dimensions PIL2Tensor
    returns are positive, the tensor and those dimensions, fed to Tensor2PIL,
    give an image of exactly those dimensions; with upscale 1 and no forced
    size on a non-empty picture they always are, and they are the dimensions
    of the original image. *)
Theorem PIL2Tensor_Tensor2PIL_dims (K : kernels) (img : pil_image)
  (upsacle min_size : pynum) (fix_resize : option pynum)
  (x : ndarray spec_float) (h0 w0 : Z) :
  PIL2Tensor K img upsacle min_size fix_resize = Ok (x, h0, w0) ->
  (0 < h0 -> 0 < w0 ->
   exists out, Tensor2PIL K x h0 w0 = Ok out /\ size out = (w0, h0)) /\
  (upsacle = PInt 1 -> fix_resize = None ->
   0 < fst (size img) -> 0 < snd (size img) ->
   exists out, Tensor2PIL K x h0 w0 = Ok out /\ size out = size img).
Proof.
  intros Hrun.
  destruct (PIL2Tensor_shape _ _ _ _ _ _ _ _ Hrun)
    as (nw & nh & Hs & Hh & Hw & Hmode).
  assert (HC : 2 <= bands (mode img) <= 4)
    by (destruct (mode img); cbn; try lia; congruence).
  split.
  - intros Hh0 Hw0.
    apply (Tensor2PIL_size K x _ _ _ h0 w0 Hs); trivial; lia.
  - intros -> -> Hwpos Hhpos.
    pose proof (PIL2Tensor_default_dims _ _ _ _ _ _ Hrun) as Hdims.
    rewrite <- Hdims in Hwpos, Hhpos |- *. cbn [fst snd] in Hwpos, Hhpos.
    apply (Tensor2PIL_size K x _ _ _ h0 w0 Hs); trivial; lia.
Qed.

Lemma demo_tensor_run :
  PIL2Tensor flat_kernels demo_image (PInt 1) (PInt 64) None
  = Ok (demo_tensor, 48, 40).
Proof. vm_compute. reflexivity. Qed.

Lemma PIL2Tensor_multiple_of_64_witness :
  exists C H W,
    shape demo_tensor = [C; H; W] /\ C = bands (mode demo_image) /\
    (64 | H) /\ (64 | W) /\ 0 < H /\ 0 < W.
Proof.
  apply (PIL2Tensor_multiple_of_64 flat_kernels demo_image (PInt 1) (PInt 64)
           None demo_tensor 48 40).
  vm_compute. reflexivity.
Defined.

Lemma PIL2Tensor_Tensor2PIL_dims_witness :
  (exists out, Tensor2PIL flat_kernels demo_tensor 48 40 = Ok out /\
               size out = (40, 48)) /\
  (exists out, Tensor2PIL flat_kernels demo_tensor 48 40 = Ok out /\
               size out = size demo_image).
Proof.
  destruct (PIL2Tensor_Tensor2PIL_dims flat_kernels demo_image (PInt 1)
              (PInt 64) None demo_tensor 48 40) as [Hany Hdefault].
  - vm_compute. reflexivity.
  - split.
    + apply Hany; reflexivity.
    + apply Hdefault; reflexivity.
Defined.

Lemma one_pixel_run :
  match PIL2Tensor flat_kernels one_pixel (PFloat f64_0_4) (PInt 1024) None with
  | Ok (x, h0, w0) =>
      h0 = 0 /\ w0 = 0 /\ shape x = [3; 1024; 1024] /\
      Tensor2PIL flat_kernels x h0 w0 = Raise RuntimeError
  | Raise _ => False
  end.
Proof. lazy. repeat split. Qed.

(** C4, as the specification words it, fails.  The two reported dimensions
    are rounded before the minimum-size floor: a picture of one pixel with
    an upscale factor of 0.4 gives a 1024 x 1024 tensor and the dimensions
    (0, 0), which Tensor2PIL refuses. *)
Lemma PIL2Tensor_Tensor2PIL_zero_target :
  ~ round_trip_keeps_dims flat_kernels one_pixel (PFloat f64_0_4) (PInt 1024)
      None.
Proof.
  intros Hclaim. pose proof one_pixel_run as Hrun.
  unfold round_trip_keeps_dims in Hclaim.
  destruct (PIL2Tensor flat_kernels one_pixel (PFloat f64_0_4) (PInt 1024) None)
    as [[[x h0] w0]|e]; [|exact Hrun].
  destruct Hrun as (-> & -> & _ & Hraise).
  destruct (Hclaim x 0 0 eq_refl) as (out & Hout & _).
  rewrite Hraise in Hout. discriminate Hout.
Qed.

(** ** Resize helpers *)

Lemma upscale_image_args_100 (C : Z) :
  upscale_image_args [100; 100; C] (PInt 2) None (PInt 64)
  = Ok (PInt 192, PInt 192, INTER_LANCZOS4).
Proof. vm_compute. reflexivity. Qed.

(** C6: a 100 x 100 picture (one to four channels), upscale 2, no minimum
    size, unit 64: the result is 192 x 192, with the channels of the input
    (OpenCV returns a single channel without its axis). *)
Theorem upscale_image_100_by_2 (K : kernels) (input_image : nparray) (C : Z) :
  np_shape input_image = [100; 100; C] ->
  0 < C <= 4 ->
  exists y,
    upscale_image K input_image (PInt 2) None (PInt 64) = Ok y /\
    shape y = (if C =? 1 then [192; 192] else [192; 192; C]).
Proof.
  intros Hs [HC HC4]. unfold upscale_image.
  rewrite Hs, upscale_image_args_100. cbn [exc_bind].
  unfold cv2_resize_u8, cv2_resize_shape. rewrite Hs.
  apply Z.ltb_lt in HC. rewrite HC.
  replace (C <=? 512) with true by (symmetry; apply Z.leb_le; lia).
  cbn [Z.ltb Z.compare andb exc_bind].
  destruct input_image; eexists; split; reflexivity.
Qed.

Lemma upscale_image_100_by_2_witness :
  exists y,
    upscale_image flat_kernels
      (U8 (mk_array [100; 100; 3] (repeat x80 (100 * 100 * 3))))
      (PInt 2) None (PInt 64) = Ok y /\
    shape y = [192; 192; 3].
Proof.
  apply (upscale_image_100_by_2 flat_kernels
           (U8 (mk_array [100; 100; 3] (repeat x80 (100 * 100 * 3)))) 3);
    [reflexivity | lia].
Defined.

(** The filter the two helpers compute next to the target size. *)
Lemma resize_args_filter :
  (forall s upscale min_size unit_resolution W H interp,
     upscale_image_args s upscale min_size unit_resolution = Ok (W, H, interp) ->
     interp = if py_gt upscale (PInt 1) then INTER_LANCZOS4 else INTER_AREA) /\
  (forall s size unit_resolution W H interp,
     fix_resize_args s size unit_resolution = Ok (W, H, interp) ->
     exists upscale,
       fix_resize_upscale s size = Ok upscale /\
       interp = if py_gt upscale (PInt 1) then INTER_LANCZOS4 else INTER_AREA).
Proof.
  split.
  - intros s upscale min_size unit_resolution W H interp Hrun.
    unfold upscale_image_args in Hrun.
    repeat (bind_inv Hrun; split_pairs Hrun).
    now injection Hrun as _ _ <-.
  - intros s size unit_resolution W H interp Hrun.
    unfold fix_resize_args in Hrun. unfold fix_resize_upscale.
    repeat (bind_inv Hrun; split_pairs Hrun).
    injection Hrun as _ _ <-. cbn [exc_bind].
    repeat match goal with
           | Hu : ?m = Ok _ |- context [?m] => rewrite Hu; cbn [exc_bind]
           end.
    eexists; split; reflexivity.
Qed.

Lemma fix_resize_upscale_raise s sz unit_resolution e :
  fix_resize_args s sz unit_resolution = Raise e ->
  (do upscale <- fix_resize_upscale s sz;
   @Raise (ndarray byte) e) = Raise e.
Proof.
  unfold fix_resize_args, fix_resize_upscale.
  destruct (unpack3 s) as [[[H W] C]|e0]; cbn [exc_bind];
    [|intros Heq; injection Heq as ->; reflexivity].
  destruct (py_float (PInt H)) as [Hf|e0]; cbn [exc_bind];
    [|intros Heq; injection Heq as ->; reflexivity].
  destruct (py_float (PInt W)) as [Wf|e0]; cbn [exc_bind];
    [|intros Heq; injection Heq as ->; reflexivity].
  destruct (py_truediv sz (py_min (PFloat Hf) (PFloat Wf))) as [u|e0];
    cbn [exc_bind];
    [reflexivity | intros Heq; injection Heq as ->; reflexivity].
Qed.

(** C5, as the code has it: the filter handed to cv2.resize is chosen from
    the scale factor alone.  upscale_image resizes to the target it computed
    with Lanczos exactly when its [upscale] argument is greater than 1 and
    with the area filter otherwise, so at 1 as well, whatever the minimum
    size and the rounding do to the target; fix_resize does the same with
    the factor [size / min(H, W)] it computes. *)
Theorem resize_filter_by_factor (K : kernels) (input_image : nparray) :
  (forall upscale min_size unit_resolution,
     upscale_image K input_image upscale min_size unit_resolution =
       (do (W, H, _) <-
          upscale_image_args (np_shape input_image) upscale min_size
            unit_resolution;
        cv2_resize_u8 K input_image W H
          (if py_gt upscale (PInt 1) then INTER_LANCZOS4 else INTER_AREA))) /\
  (forall min_size unit_resolution,
     upscale_image K input_image (PInt 1) min_size unit_resolution =
       (do (W, H, _) <-
          upscale_image_args (np_shape input_image) (PInt 1) min_size
            unit_resolution;
        cv2_resize_u8 K input_image W H INTER_AREA)) /\
  (forall sz unit_resolution,
     fix_resize K input_image sz unit_resolution =
       (do upscale <- fix_resize_upscale (np_shape input_image) sz;
        do (W, H, _) <-
          fix_resize_args (np_shape input_image) sz unit_resolution;
        cv2_resize_u8 K input_image W H
          (if py_gt upscale (PInt 1) then INTER_LANCZOS4 else INTER_AREA))).
Proof.
  assert (Hup : forall upscale min_size unit_resolution,
     upscale_image K input_image upscale min_size unit_resolution =
       (do (W, H, _) <-
          upscale_image_args (np_shape input_image) upscale min_size
            unit_resolution;
        cv2_resize_u8 K input_image W H
          (if py_gt upscale (PInt 1) then INTER_LANCZOS4 else INTER_AREA))).
  { intros upscale min_size unit_resolution. unfold upscale_image.
    destruct (upscale_image_args (np_shape input_image) upscale min_size
                unit_resolution) as [[[W H] interp]|e] eqn:Hargs;
      cbn [exc_bind]; [|reflexivity].
    now rewrite (proj1 resize_args_filter _ _ _ _ _ _ _ Hargs). }
  split; [exact Hup|]. split.
  - intros min_size unit_resolution. exact (Hup (PInt 1) min_size unit_resolution).
  - intros sz unit_resolution. unfold fix_resize.
    destruct (fix_resize_args (np_shape input_image) sz unit_resolution)
      as [[[W H] interp]|e] eqn:Hargs; cbn [exc_bind].
    + destruct (proj2 resize_args_filter _ _ _ _ _ _ Hargs) as (u & -> & ->).
      reflexivity.
    + rewrite (fix_resize_upscale_raise _ _ _ _ Hargs). reflexivity.
Qed.

(** C5, as the specification words it, fails.  With upscale 1 and a minimum
    size of 1024, a 100 x 100 picture is enlarged to 1024 x 1024 with the
    area filter; fix_resize to size 100 enlarges it to 128 x 128 with the
    area filter (factor exactly 1, the rounding enlarges); and with upscale
    1.005 a 95 x 95 picture shrinks to 64 x 64 with Lanczos. *)
Lemma resize_filter_not_by_direction :
  ~ filter_follows_direction [100; 100; 3]
      (upscale_image_args [100; 100; 3] (PInt 1) (Some (PInt 1024)) (PInt 64))
  /\ ~ filter_follows_direction [100; 100; 3]
        (fix_resize_args [100; 100; 3] (PInt 100) (PInt 64))
  /\ ~ filter_follows_direction [95; 95; 3]
        (upscale_image_args [95; 95; 3] (PFloat f64_1_005) None (PInt 64)).
Proof.
  repeat split.
  - intros Hc.
    destruct (Hc 1024 1024 INTER_AREA) as [[_ Hup] _];
      [vm_compute; reflexivity|].
    assert (Hbad : INTER_AREA = INTER_LANCZOS4) by (apply Hup; cbn; lia).
    discriminate Hbad.
  - intros Hc.
    destruct (Hc 128 128 INTER_AREA) as [[_ Hup] _];
      [vm_compute; reflexivity|].
    assert (Hbad : INTER_AREA = INTER_LANCZOS4) by (apply Hup; cbn; lia).
    discriminate Hbad.
  - intros Hc.
    destruct (Hc 64 64 INTER_LANCZOS4) as [_ [_ Hdown]];
      [vm_compute; reflexivity|].
    assert (Hbad : INTER_LANCZOS4 = INTER_AREA) by (apply Hdown; cbn; lia).
    discriminate Hbad.
Qed.

(** * Further properties of the module *)

(** ** Channel normalisation, continued *)

Lemma all_bytes_complete (b : byte) : In b all_bytes.
Proof.
  assert (H : existsb (Byte.eqb b) all_bytes = true)
    by (destruct b; vm_compute; reflexivity).
  apply existsb_exists in H. destruct H as (b' & Hin & Heq).
  apply Byte.byte_dec_bl in Heq. now subst.
Qed.

Lemma for_all_bytes (P : byte -> bool) :
  forallb P all_bytes = true -> forall b, P b = true.
Proof.
  intros H b. rewrite forallb_forall in H. apply H, all_bytes_complete.
Qed.

(** The 4-channel branch works pixel by pixel: every output pixel is the
    compositing of the input pixel at the same place. *)
Lemma HWC3_rgba_pixels (H W : Z) (ls : list (list byte)) :
  Forall (fun p => List.length p = 4%nat) ls ->
  HWC3 (U8 (mk_array [H; W; 4] (List.concat ls)))
  = Ok (mk_array [H; W; 3] (List.concat (map blend_pixel ls))).
Proof.
  intros Hall.
  unfold HWC3, ndim, slice_last, broadcast_last, array_map.
  cbn [shape data List.length Nat.eqb py_assert exc_bind Z.eqb Pos.eqb orb].
  change (Z.to_nat 4) with 4%nat.
  rewrite !(chunks_concat 4 ls) by (trivial; lia).
  change (Z.to_nat (Z.of_nat (3 - 0))) with 3%nat.
  change (Z.of_nat (3 - 0)) with 3.
  cbn [Nat.sub skipn].
  rewrite (concat_map u8_to_f32), map_map.
  assert (Hrgb : Forall (fun p => List.length p = 3%nat)
                   (map (fun px => map u8_to_f32 (firstn 3 px)) ls)).
  { apply (map_rows_length _ 4 3); [|exact Hall].
    intros p Hp. rewrite length_map, length_firstn. lia. }
  rewrite (chunks_concat 3 _ ltac:(lia) Hrgb).
  rewrite (chunks_concat 3) by
    (try lia; apply broadcast_rows_length; exact Hrgb).
  do 2 f_equal. clear Hrgb.
  induction Hall as [|p ls Hp Hall IH]; [reflexivity|].
  destruct p as [|r [|g [|b [|a [|]]]]]; try discriminate Hp.
  cbn [map List.concat combine firstn skipn app nth blend_pixel].
  unfold blend_sample at 1 2 3. do 3 f_equal. exact IH.
Qed.

Lemma rgba_rows (x : ndarray byte) (H W : Z) :
  shape x = [H; W; 4] ->
  Z.of_nat (List.length (data x)) = H * W * 4 ->
  exists ls,
    x = mk_array [H; W; 4] (List.concat ls) /\
    Forall (fun p => List.length p = 4%nat) ls /\
    List.length ls = Z.to_nat (H * W).
Proof.
  destruct x as [sh dat]. cbn [shape data]. intros -> Hlen.
  destruct (pieces_of_length 4 (Z.to_nat (H * W)) dat) as (ls & -> & Hall & Hn);
    [lia|].
  exists ls. auto.
Qed.

(** X1: on a well-formed 4-channel array HWC3 works pixel by pixel: the
    output is (H, W, 3) and its pixel at each place is the compositing over
    white of the input pixel at that place. *)
Theorem HWC3_rgba_per_pixel (x : ndarray byte) (H W : Z) :
  shape x = [H; W; 4] ->
  Z.of_nat (List.length (data x)) = H * W * 4 ->
  HWC3 (U8 x)
  = Ok (mk_array [H; W; 3]
          (List.concat (map blend_pixel (chunks 4 (data x))))).
Proof.
  intros Hs Hlen.
  destruct (rgba_rows x H W Hs Hlen) as (ls & -> & Hall & _).
  cbn [data]. rewrite (chunks_concat 4 ls) by (trivial; lia).
  now apply HWC3_rgba_pixels.
Qed.

Lemma HWC3_rgba_per_pixel_witness :
  HWC3 (U8 (mk_array [1; 2; 4] [x10; x20; x30; xff; x01; x02; x03; x80]))
  = Ok (mk_array [1; 2; 3]
          (List.concat
             (map blend_pixel
                (chunks 4 [x10; x20; x30; xff; x01; x02; x03; x80])))).
Proof.
  apply (HWC3_rgba_per_pixel
           (mk_array [1; 2; 4] [x10; x20; x30; xff; x01; x02; x03; x80]) 1 2);
    reflexivity.
Defined.

Lemma blend_transparent_sample (c : byte) : blend_sample c x00 = xff.
Proof. destruct c; vm_compute; reflexivity. Qed.

(** X2: a 4-channel array whose alpha channel is 0 everywhere comes out
    pure white, whatever its colour channels hold. *)
Theorem HWC3_transparent (x : ndarray byte) (H W : Z) :
  shape x = [H; W; 4] ->
  Z.of_nat (List.length (data x)) = H * W * 4 ->
  Forall (fun a => a = x00) (data (channel 3 x)) ->
  HWC3 (U8 x) = Ok (mk_array [H; W; 3] (repeat xff (Z.to_nat (H * W * 3)))).
Proof.
  intros Hs Hlen Halpha.
  destruct (rgba_rows x H W Hs Hlen) as (ls & -> & Hall & Hn).
  unfold channel in Halpha. cbn [shape data] in Halpha.
  change (Z.to_nat 4) with 4%nat in Halpha.
  rewrite (take_every_concat 4 3 x00) in Halpha by (trivial; lia).
  rewrite HWC3_rgba_pixels by exact Hall. do 2 f_equal.
  replace (Z.to_nat (H * W * 3)) with (3 * List.length ls)%nat
    by (cbn [data] in Hlen; lia).
  clear Hlen Hn Hs.
  induction Hall as [|p ls Hp Hall IH]; [reflexivity|].
  inversion Halpha as [|a ? Ha Hrest]; subst.
  destruct p as [|r [|g [|b [|a [|]]]]]; try discriminate Hp.
  cbn [nth] in Ha. subst a.
  cbn [map List.concat blend_pixel firstn nth app].
  rewrite !blend_transparent_sample, (IH Hrest).
  cbn [List.length].
  replace (3 * S (List.length ls))%nat with (S (S (S (3 * List.length ls))))
    by lia.
  reflexivity.
Qed.

Lemma HWC3_transparent_witness :
  HWC3 (U8 (mk_array [1; 2; 4] [x10; x20; x30; x00; x01; x02; x03; x00]))
  = Ok (mk_array [1; 2; 3] (repeat xff (Z.to_nat (1 * 2 * 3)))).
Proof.
  apply (HWC3_transparent _ 1 2); [reflexivity | reflexivity |].
  repeat constructor.
Defined.

Lemma HWC3_rgb_identity (y : ndarray byte) (H W : Z) :
  shape y = [H; W; 3] -> HWC3 (U8 y) = Ok y.
Proof.
  destruct y as [sh dat]. cbn [shape]. intros ->. reflexivity.
Qed.

Lemma HWC3_shape (x : nparray) :
  match x with
  | U8 a =>
      match shape a with
      | [H; W] => exists y, HWC3 x = Ok y /\ shape y = [H; W; 3]
      | [H; W; C] =>
          if (C =? 1) || (C =? 3) || (C =? 4)
          then exists y, HWC3 x = Ok y /\ shape y = [H; W; 3]
          else HWC3 x = Raise (AssertionError "")
      | _ => HWC3 x = Raise (AssertionError "")
      end
  | F32 _ => HWC3 x = Raise (AssertionError "")
  end.
Proof.
  destruct x as [[sh dat]|a]; [|reflexivity]. cbn [shape].
  destruct sh as [|H [|W [|C [|D sh]]]]; try reflexivity.
  - unfold HWC3, ndim, concatenate3_axis2, expand_last.
    cbn [shape data List.length Nat.eqb app py_assert exc_bind Z.eqb Pos.eqb
         orb].
    rewrite !Z.eqb_refl. cbn [andb]. eexists; split; reflexivity.
  - unfold HWC3, ndim. cbn [shape data List.length Nat.eqb].
    destruct (C =? 1) eqn:H1; [|destruct (C =? 3) eqn:H3;
                                [|destruct (C =? 4) eqn:H4]];
      cbn [orb py_assert exc_bind]; try reflexivity.
    + apply Z.eqb_eq in H1. subst C. cbn [Z.eqb Pos.eqb].
      unfold concatenate3_axis2. cbn [shape data].
      rewrite !Z.eqb_refl. cbn [andb]. eexists; split; reflexivity.
    + apply Z.eqb_eq in H3. subst C. eexists; split; reflexivity.
    + apply Z.eqb_eq in H4. subst C. cbn [Z.eqb Pos.eqb].
      eexists; split; reflexivity.
Qed.

(** X3: HWC3 succeeds exactly on uint8 arrays that are 2-dimensional or
    3-dimensional with 1, 3 or 4 channels, and then returns an array of
    shape (H, W, 3) with the input's H and W; on every other input (another
    dtype, another number of dimensions, another channel count) it raises an
    assertion failure and nothing else. *)
Theorem HWC3_domain (x : nparray) :
  match x with
  | U8 a =>
      match shape a with
      | [H; W] => exists y, HWC3 x = Ok y /\ shape y = [H; W; 3]
      | [H; W; C] =>
          if (C =? 1) || (C =? 3) || (C =? 4)
          then exists y, HWC3 x = Ok y /\ shape y = [H; W; 3]
          else HWC3 x = Raise (AssertionError "")
      | _ => HWC3 x = Raise (AssertionError "")
      end
  | F32 _ => HWC3 x = Raise (AssertionError "")
  end.
Proof. exact (HWC3_shape x). Qed.

(** X4: HWC3 is idempotent: whatever it returns is a 3-channel array that a
    second call hands back unchanged. *)
Theorem HWC3_idempotent (x : nparray) (y : ndarray byte) :
  HWC3 x = Ok y -> HWC3 (U8 y) = Ok y.
Proof.
  intros Hrun. pose proof (HWC3_shape x) as Hx.
  destruct x as [a|a]; [|congruence].
  destruct (shape a) as [|H [|W [|C [|D sh]]]]; try congruence.
  - destruct Hx as (y' & Hy & Hs). rewrite Hrun in Hy. injection Hy as <-.
    exact (HWC3_rgb_identity y H W Hs).
  - destruct ((C =? 1) || (C =? 3) || (C =? 4)); [|congruence].
    destruct Hx as (y' & Hy & Hs). rewrite Hrun in Hy. injection Hy as <-.
    exact (HWC3_rgb_identity y H W Hs).
Qed.

Lemma HWC3_idempotent_witness :
  HWC3 (U8 demo_rgba_out) = Ok demo_rgba_out.
Proof.
  apply (HWC3_idempotent (U8 demo_rgba)). vm_compute. reflexivity.
Defined.

(** ** Tensors: value range, failures and round trips *)

Lemma demo_tensor_shape : shape demo_tensor = [3; 64; 64].
Proof. vm_compute. reflexivity. Qed.

Lemma take_every_In {A} (c : nat) (x : A) : forall l i,
  In x (take_every c i l) -> In x l.
Proof.
  induction l as [|a l IH]; intros i Hin; [exact Hin|].
  destruct i as [|i]; cbn [take_every] in Hin.
  - destruct Hin as [<-|Hin]; [now left | right; eauto].
  - right. eauto.
Qed.

Lemma transpose_flat_In {A} (c : nat) (l : list A) (x : A) :
  In x (transpose_flat c l) -> In x l.
Proof.
  unfold transpose_flat. intros Hin.
  apply in_concat in Hin. destruct Hin as (col & Hcol & Hx).
  apply in_map_iff in Hcol. destruct Hcol as (k & <- & _).
  eapply take_every_In; eassumption.
Qed.

Lemma normalize_sample_range (b : byte) :
  in_unit_range (F32.of_F64 (normalize_sample b)) = true.
Proof.
  revert b. apply for_all_bytes. vm_compute. reflexivity.
Qed.

(** X5: every sample of the tensor PIL2Tensor returns lies in [-1, 1], as
    its docstring promises, whatever the resampling filter produced. *)
Theorem PIL2Tensor_range (K : kernels) (img : pil_image)
  (upsacle min_size : pynum) (fix_resize : option pynum)
  (x : ndarray spec_float) (h0 w0 : Z) :
  PIL2Tensor K img upsacle min_size fix_resize = Ok (x, h0, w0) ->
  Forall (fun v => in_unit_range v = true) (data x).
Proof.
  unfold PIL2Tensor. destruct (size img) as [w h]. intros Hrun.
  repeat (bind_inv Hrun; split_pairs Hrun).
  injection Hrun as <- _ _.
  match goal with Hp : permute_201 ?t = Ok _ |- _ =>
    unfold permute_201 in Hp; destruct (shape t) as [|d0 [|d1 [|d2 [|]]]];
      try discriminate Hp; injection Hp as <- end.
  cbn [data array_map]. apply Forall_forall. intros v Hv.
  apply transpose_flat_In in Hv. rewrite map_map in Hv.
  apply in_map_iff in Hv. destruct Hv as (b & <- & _).
  apply normalize_sample_range.
Qed.

Lemma PIL2Tensor_range_witness :
  Forall (fun v => in_unit_range v = true) (data demo_tensor).
Proof.
  apply (PIL2Tensor_range flat_kernels demo_image (PInt 1) (PInt 64) None
           demo_tensor 48 40).
  exact demo_tensor_run.
Defined.

(** X6: PIL2Tensor never returns a tensor for a single-band (mode L)
    picture: the array is then 2-dimensional and the channel-first permute
    has no third axis to move. *)
Theorem PIL2Tensor_single_band (K : kernels) (img : pil_image)
  (upsacle min_size : pynum) (fix_resize : option pynum) :
  mode img = L ->
  exists e, PIL2Tensor K img upsacle min_size fix_resize = Raise e.
Proof.
  intros Hmode.
  destruct (PIL2Tensor K img upsacle min_size fix_resize)
    as [[[x h0] w0]|e] eqn:Hrun; [|now exists e].
  destruct (PIL2Tensor_shape _ _ _ _ _ _ _ _ Hrun) as (_ & _ & _ & _ & _ & Hne).
  contradiction.
Qed.

Lemma PIL2Tensor_single_band_witness :
  exists e,
    PIL2Tensor flat_kernels (mk_image L (40, 48) (repeat x80 (40 * 48)))
      (PInt 1) (PInt 64) None = Raise e.
Proof.
  apply (PIL2Tensor_single_band flat_kernels
           (mk_image L (40, 48) (repeat x80 (40 * 48)))).
  reflexivity.
Defined.

Lemma py_truediv_by_int_zero (a : pynum) :
  py_truediv a (PInt 0) = Raise ZeroDivisionError.
Proof.
  destruct a as [z|f]; [destruct z; reflexivity | reflexivity].
Qed.

(** X7: with the default upscale of 1, a picture with an empty side and a
    positive minimum size makes PIL2Tensor divide by zero: the scale factor
    [min_size / min(w, h)] cannot be computed. *)
Theorem PIL2Tensor_empty_image (K : kernels) (img : pil_image)
  (min_size : pynum) (fix_resize : option pynum) :
  0 <= fst (size img) -> 0 <= snd (size img) ->
  fst (size img) = 0 \/ snd (size img) = 0 ->
  py_lt (PInt 0) min_size = true ->
  PIL2Tensor K img (PInt 1) min_size fix_resize = Raise ZeroDivisionError.
Proof.
  unfold PIL2Tensor. destruct (size img) as [w h]. cbn [fst snd].
  intros Hw Hh Hzero Hms. cbn [py_mul py_round exc_bind].
  rewrite !Z.mul_1_r.
  assert (Hmin : py_min (PInt w) (PInt h) = PInt 0).
  { unfold py_min, py_lt. destruct (h <? w) eqn:Hlt.
    - apply Z.ltb_lt in Hlt. f_equal. lia.
    - apply Z.ltb_ge in Hlt. f_equal. lia. }
  rewrite Hmin, Hms, py_truediv_by_int_zero. reflexivity.
Qed.

Lemma PIL2Tensor_empty_image_witness :
  PIL2Tensor flat_kernels (mk_image RGB (0, 48) []) (PInt 1) (PInt 1024) None
  = Raise ZeroDivisionError.
Proof.
  apply (PIL2Tensor_empty_image flat_kernels (mk_image RGB (0, 48) []));
    cbn; try lia; auto.
Defined.

(** X8: Tensor2PIL refuses a target size that is not positive: on a
    3-dimensional tensor the interpolation raises before any image is
    made. *)
Theorem Tensor2PIL_bad_target (K : kernels) (x : ndarray spec_float)
  (C H W h0 w0 : Z) :
  shape x = [C; H; W] ->
  h0 <= 0 \/ w0 <= 0 ->
  Tensor2PIL K x h0 w0 = Raise RuntimeError.
Proof.
  intros Hs Hbad. unfold Tensor2PIL, unsqueeze0, interpolate.
  rewrite Hs. cbn [shape].
  replace ((0 <? C) && (0 <? H) && (0 <? W) && (0 <? h0) && (0 <? w0))
    with false; [reflexivity|].
  symmetry. apply andb_false_iff.
  destruct Hbad as [Hh|Hw].
  - left. apply andb_false_iff. right. apply Z.ltb_ge. exact Hh.
  - right. apply Z.ltb_ge. exact Hw.
Qed.

Lemma Tensor2PIL_bad_target_witness :
  Tensor2PIL flat_kernels demo_tensor 0 40 = Raise RuntimeError.
Proof.
  apply (Tensor2PIL_bad_target flat_kernels demo_tensor 3 64 64 0 40).
  - exact demo_tensor_shape.
  - left. lia.
Defined.

Lemma nth_seq_map {A} (d : A) : forall p : list A,
  map (fun k => nth k p d) (seq 0 (List.length p)) = p.
Proof.
  induction p as [|a p IH]; [reflexivity|].
  cbn [List.length seq map nth]. f_equal.
  rewrite <- seq_shift, map_map. exact IH.
Qed.

Section Transpose.
Context {A : Type}.

Lemma concat_all_nil (ls : list (list A)) :
  Forall (fun p => p = []) ls -> List.concat ls = [].
Proof. induction 1 as [|p ls -> _ IH]; [reflexivity | exact IH]. Qed.

Lemma transpose_flat_nil (c : nat) : transpose_flat c (@nil A) = [].
Proof.
  unfold transpose_flat. apply concat_all_nil.
  apply Forall_forall. intros p Hp.
  apply in_map_iff in Hp. destruct Hp as (k & <- & _). reflexivity.
Qed.

(** Columns of a matrix given by its rows. *)
Lemma transpose_flat_rows (c : nat) (d : A) (rows : list (list A)) :
  Forall (fun p => List.length p = c) rows ->
  transpose_flat c (List.concat rows)
  = List.concat (map (fun k => map (fun p => nth k p d) rows) (seq 0 c)).
Proof.
  intros Hall. unfold transpose_flat. f_equal.
  apply map_ext_in. intros k Hk. apply in_seq in Hk.
  apply take_every_concat; [lia | exact Hall].
Qed.

(** Transposing twice gives the matrix back. *)
Lemma transpose_flat_involutive (c n : nat) (l : list A) :
  List.length l = (c * n)%nat ->
  transpose_flat n (transpose_flat c l) = l.
Proof.
  intros Hlen.
  destruct l as [|d l'] eqn:Hl.
  { now rewrite !transpose_flat_nil. }
  rewrite <- Hl in *. clear Hl l'.
  destruct (pieces_of_length c n l Hlen) as (rows & -> & Hall & Hn).
  rewrite (transpose_flat_rows c d rows Hall).
  rewrite (transpose_flat_rows n d).
  - transitivity (List.concat (map (fun j => nth j rows []) (seq 0 n)));
      [|now rewrite <- Hn, nth_seq_map].
    f_equal. apply map_ext_in. intros j Hj. apply in_seq in Hj.
    rewrite map_map.
    assert (Hrow : List.length (nth j rows []) = c).
    { rewrite Forall_forall in Hall. apply Hall, nth_In. lia. }
    transitivity (map (fun k => nth k (nth j rows []) d) (seq 0 c));
      [|now rewrite <- Hrow, nth_seq_map].
    apply map_ext. intros k.
    rewrite (nth_indep _ d ((fun p => nth k p d) []))
      by (rewrite length_map; lia).
    apply (map_nth (fun p => nth k p d)).
  - apply Forall_forall. intros col Hcol.
    apply in_map_iff in Hcol. destruct Hcol as (k & <- & _).
    now rewrite length_map.
Qed.
End Transpose.

(** X9: Numpy2Tensor turns every 3-dimensional array (H, W, C) into a
    channel-first tensor (C, H, W), and raises on an array with any other
    number of dimensions. *)
Theorem Numpy2Tensor_shape (img : nparray) :
  match np_shape img with
  | [H; W; C] => exists x, Numpy2Tensor img = Ok x /\ shape x = [C; H; W]
  | _ => Numpy2Tensor img = Raise RuntimeError
  end.
Proof.
  unfold Numpy2Tensor, permute_201.
  destruct img as [[sh dat]|[sh dat]]; cbn [np_shape shape array_map data];
    destruct sh as [|H [|W [|C [|D sh]]]]; try reflexivity;
    eexists; split; reflexivity.
Qed.

(** X10: on a uint8 array every sample of the tensor Numpy2Tensor returns
    lies in [-1, 1]. *)
Theorem Numpy2Tensor_range (a : ndarray byte) (x : ndarray spec_float) :
  Numpy2Tensor (U8 a) = Ok x ->
  Forall (fun v => in_unit_range v = true) (data x).
Proof.
  unfold Numpy2Tensor, permute_201, array_map. cbn [shape data].
  destruct (shape a) as [|H [|W [|C [|D sh]]]]; intros Hrun;
    try discriminate Hrun.
  injection Hrun as <-. cbn [data].
  apply Forall_forall. intros v Hv.
  apply transpose_flat_In in Hv. rewrite map_map in Hv.
  apply in_map_iff in Hv. destruct Hv as (b & <- & _).
  apply normalize_sample_range.
Qed.

Lemma Numpy2Tensor_range_witness :
  Forall (fun v => in_unit_range v = true)
    (transpose_flat 4
       (map F32.of_F64 (map normalize_sample (data demo_rgba)))).
Proof.
  apply (Numpy2Tensor_range demo_rgba
           (mk_array [4; 1; 2]
              (transpose_flat 4
                 (map F32.of_F64 (map normalize_sample (data demo_rgba)))))).
  reflexivity.
Defined.

(** X11: unless both target dimensions are given, Tensor2Numpy does not
    resample: a tensor (C, H, W) becomes an array (H, W, C) whose samples
    are those of the tensor, mapped back to [0, 255] and moved channel-last;
    the interpolation kernel is not consulted. *)
Theorem Tensor2Numpy_no_target (K : kernels) (x : ndarray spec_float)
  (C H W : Z) (h0 w0 : option Z) :
  shape x = [C; H; W] ->
  h0 = None \/ w0 = None ->
  Tensor2Numpy K x h0 w0
  = Ok (mk_array [H; W; C]
          (map denormalize_sample
               (transpose_flat (Z.to_nat (H * W)) (data x)))).
Proof.
  intros Hs Hnone. unfold Tensor2Numpy.
  destruct h0 as [h|], w0 as [w|];
    try (destruct Hnone; discriminate);
    cbn [exc_bind]; unfold permute_120; rewrite Hs; reflexivity.
Qed.

Lemma Tensor2Numpy_no_target_witness :
  Tensor2Numpy flat_kernels demo_tensor (Some 48) None
  = Ok (mk_array [64; 64; 3]
          (map denormalize_sample
               (transpose_flat (Z.to_nat (64 * 64)) (data demo_tensor)))).
Proof.
  apply (Tensor2Numpy_no_target flat_kernels demo_tensor 3 64 64).
  - exact demo_tensor_shape.
  - now right.
Defined.

(** X12: with both target dimensions given and positive, Tensor2Numpy on
    a tensor (C, H, W) with at least one channel and a non-empty picture
    returns an array of exactly that height and width with the channels of
    the tensor; a target dimension that is not positive raises. *)
Theorem Tensor2Numpy_target (K : kernels) (x : ndarray spec_float)
  (C H W h0 w0 : Z) :
  shape x = [C; H; W] -> 0 < H -> 0 < W ->
  (0 < C -> 0 < h0 -> 0 < w0 ->
   exists y, Tensor2Numpy K x (Some h0) (Some w0) = Ok y /\
             shape y = [h0; w0; C]) /\
  (h0 <= 0 \/ w0 <= 0 ->
   Tensor2Numpy K x (Some h0) (Some w0) = Raise RuntimeError).
Proof.
  intros Hs HH HW.
  apply Z.ltb_lt in HH, HW.
  split.
  - intros HC Hh0 Hw0. apply Z.ltb_lt in HC, Hh0, Hw0.
    unfold Tensor2Numpy, unsqueeze0, interpolate. rewrite Hs. cbn [shape].
    rewrite HC, HH, HW, Hh0, Hw0.
    cbn [andb exc_bind squeeze0 shape data permute_120 array_map].
    eexists; split; reflexivity.
  - intros Hbad.
    unfold Tensor2Numpy, unsqueeze0, interpolate. rewrite Hs. cbn [shape].
    rewrite HH, HW.
    replace ((0 <? C) && true && true && (0 <? h0) && (0 <? w0)) with false;
      [reflexivity|].
    symmetry. apply andb_false_iff.
    destruct Hbad as [Hh|Hw].
    + left. apply andb_false_iff. right. now apply Z.ltb_ge.
    + right. now apply Z.ltb_ge.
Qed.

Lemma Tensor2Numpy_target_witness :
  (exists y, Tensor2Numpy flat_kernels demo_tensor (Some 48) (Some 40) = Ok y
             /\ shape y = [48; 40; 3]) /\
  Tensor2Numpy flat_kernels demo_tensor (Some 0) (Some 7) = Raise RuntimeError.
Proof.
  split.
  - apply (proj1 (Tensor2Numpy_target flat_kernels demo_tensor 3 64 64 48 40
                    demo_tensor_shape ltac:(lia) ltac:(lia)));
      lia.
  - apply (proj2 (Tensor2Numpy_target flat_kernels demo_tensor 3 64 64 0 7
                    demo_tensor_shape ltac:(lia) ltac:(lia))).
    left. lia.
Defined.

Lemma sample_round_trip (b : byte) :
  denormalize_sample (F32.of_F64 (normalize_sample b)) = b.
Proof.
  apply Byte.byte_dec_bl. revert b.
  apply (for_all_bytes
           (fun b => Byte.eqb
                       (denormalize_sample (F32.of_F64 (normalize_sample b)))
                       b)).
  vm_compute. reflexivity.
Qed.

(** X13: round trip on uint8 arrays: a well-formed (H, W, C) array sent
    through Numpy2Tensor and back through Tensor2Numpy without a target size
    comes back unchanged, sample for sample: the float32 normalisation to
    [-1, 1] loses nothing on 8-bit samples. *)
Theorem Numpy2Tensor_Tensor2Numpy (K : kernels) (a : ndarray byte)
  (H W C : Z) :
  shape a = [H; W; C] ->
  0 <= H -> 0 <= W -> 0 <= C ->
  Z.of_nat (List.length (data a)) = H * W * C ->
  exists x,
    Numpy2Tensor (U8 a) = Ok x /\ Tensor2Numpy K x None None = Ok a.
Proof.
  destruct a as [sh dat]. cbn [shape data]. intros -> HH HW HC Hlen.
  unfold Numpy2Tensor, permute_201, array_map. cbn [shape data].
  eexists. split; [reflexivity|].
  unfold Tensor2Numpy, permute_120, array_map.
  cbn [exc_bind shape data]. do 2 f_equal.
  rewrite (transpose_flat_involutive (Z.to_nat C) (Z.to_nat (H * W))).
  - rewrite !map_map. rewrite <- (map_id dat) at 2.
    apply map_ext. intros b. apply sample_round_trip.
  - rewrite !length_map. nia.
Qed.

Lemma Numpy2Tensor_Tensor2Numpy_witness :
  exists x,
    Numpy2Tensor (U8 demo_rgba) = Ok x /\
    Tensor2Numpy flat_kernels x None None = Ok demo_rgba.
Proof.
  apply (Numpy2Tensor_Tensor2Numpy flat_kernels demo_rgba 1 2 4);
    try reflexivity; lia.
Defined.

(** ** Resize helpers, continued *)

Lemma cv2_resize_u8_shape K x W H interp y :
  cv2_resize_u8 K x W H interp = Ok y ->
  exists Wz Hz rest,
    W = PInt Wz /\ H = PInt Hz /\ shape y = Hz :: Wz :: rest /\
    0 < Hz /\ 0 < Wz.
Proof.
  unfold cv2_resize_u8, cv2_resize_shape. intros Hrun.
  destruct W as [Wz|]; [|discriminate Hrun].
  destruct H as [Hz|]; [|discriminate Hrun].
  destruct (np_shape x) as [|Hin [|Win [|C [|]]]]; try discriminate Hrun.
  destruct ((0 <? C) && (C <=? 512) && (0 <? Hin) && (0 <? Win)
            && (0 <? Wz) && (0 <? Hz))
    eqn:Hpos; [|discriminate Hrun].
  repeat (apply andb_true_iff in Hpos; destruct Hpos as [Hpos ?]).
  cbn [exc_bind] in Hrun. exists Wz, Hz.
  destruct (C =? 1); destruct x; injection Hrun as <-; cbn [shape];
    eexists; repeat split; try reflexivity; now apply Z.ltb_lt.
Qed.

Lemma upscale_image_args_unit s upscale min_size u W H interp :
  upscale_image_args s upscale min_size (PInt u) = Ok (W, H, interp) ->
  exists nw nh, W = PInt (nw * u) /\ H = PInt (nh * u).
Proof.
  unfold upscale_image_args. intros Hrun.
  repeat (bind_inv Hrun; split_pairs Hrun).
  injection Hrun as <- <- _.
  repeat match goal with
         | Hm : py_mul (PInt _) (PInt _) = Ok _ |- _ =>
             cbn [py_mul] in Hm; injection Hm as <-
         end.
  eexists _, _. split; reflexivity.
Qed.

Lemma fix_resize_args_unit s size u W H interp :
  fix_resize_args s size (PInt u) = Ok (W, H, interp) ->
  exists nw nh, W = PInt (nw * u) /\ H = PInt (nh * u).
Proof.
  unfold fix_resize_args. intros Hrun.
  repeat (bind_inv Hrun; split_pairs Hrun).
  injection Hrun as <- <- _.
  repeat match goal with
         | Hm : py_mul (PInt _) (PInt _) = Ok _ |- _ =>
             cbn [py_mul] in Hm; injection Hm as <-
         end.
  eexists _, _. split; reflexivity.
Qed.

(** X14: whenever upscale_image or fix_resize returns, with an integer
    resolution unit, the height and width of the result are positive
    multiples of that unit. *)
Theorem resize_helpers_multiple_of_unit (K : kernels) (x : nparray) (u : Z) :
  (forall upscale min_size y,
     upscale_image K x upscale min_size (PInt u) = Ok y ->
     exists Hout Wout rest,
       shape y = Hout :: Wout :: rest /\
       (u | Hout) /\ (u | Wout) /\ 0 < Hout /\ 0 < Wout) /\
  (forall size y,
     fix_resize K x size (PInt u) = Ok y ->
     exists Hout Wout rest,
       shape y = Hout :: Wout :: rest /\
       (u | Hout) /\ (u | Wout) /\ 0 < Hout /\ 0 < Wout).
Proof.
  split.
  - intros upscale min_size y Hrun. unfold upscale_image in Hrun.
    bind_inv Hrun. split_pairs Hrun.
    match goal with Ha : upscale_image_args _ _ _ _ = Ok _ |- _ =>
      destruct (upscale_image_args_unit _ _ _ _ _ _ _ Ha)
        as (nw & nh & -> & ->) end.
    destruct (cv2_resize_u8_shape _ _ _ _ _ _ Hrun)
      as (Wz & Hz & rest & HW & HH & Hs & Hh & Hw).
    injection HW as <-. injection HH as <-.
    exists (nh * u), (nw * u), rest.
    repeat split; trivial; apply Z.divide_factor_r.
  - intros size y Hrun. unfold fix_resize in Hrun.
    bind_inv Hrun. split_pairs Hrun.
    match goal with Ha : fix_resize_args _ _ _ = Ok _ |- _ =>
      destruct (fix_resize_args_unit _ _ _ _ _ _ Ha)
        as (nw & nh & -> & ->) end.
    destruct (cv2_resize_u8_shape _ _ _ _ _ _ Hrun)
      as (Wz & Hz & rest & HW & HH & Hs & Hh & Hw).
    injection HW as <-. injection HH as <-.
    exists (nh * u), (nw * u), rest.
    repeat split; trivial; apply Z.divide_factor_r.
Qed.

Lemma resize_helpers_multiple_of_unit_witness :
  (exists y,
     upscale_image flat_kernels (U8 demo_array) (PInt 2) None (PInt 4) = Ok y /\
     exists Hout Wout rest,
       shape y = Hout :: Wout :: rest /\
       (4 | Hout) /\ (4 | Wout) /\ 0 < Hout /\ 0 < Wout) /\
  (exists y,
     fix_resize flat_kernels (U8 demo_array) (PInt 8) (PInt 4) = Ok y /\
     exists Hout Wout rest,
       shape y = Hout :: Wout :: rest /\
       (4 | Hout) /\ (4 | Wout) /\ 0 < Hout /\ 0 < Wout).
Proof.
  split; eexists; split.
  - vm_compute. reflexivity.
  - eapply (proj1 (resize_helpers_multiple_of_unit flat_kernels (U8 demo_array)
                     4) (PInt 2) None).
    vm_compute. reflexivity.
  - vm_compute. reflexivity.
  - eapply (proj2 (resize_helpers_multiple_of_unit flat_kernels (U8 demo_array)
                     4) (PInt 8)).
    vm_compute. reflexivity.
Defined.

Lemma upscale_image_args_float_unit s upscale min_size f W H interp :
  upscale_image_args s upscale min_size (PFloat f) = Ok (W, H, interp) ->
  exists g, H = PFloat g.
Proof.
  unfold upscale_image_args. intros Hrun.
  repeat (bind_inv Hrun; split_pairs Hrun).
  injection Hrun as _ <- _.
  match goal with
  | Hm : py_mul (PInt _) (PFloat _) = Ok ?h |- exists g, ?h = _ =>
      cbn [py_mul py_float] in Hm; bind_inv Hm; injection Hm as <-
  end.
  eexists; reflexivity.
Qed.

Lemma fix_resize_args_float_unit s size f W H interp :
  fix_resize_args s size (PFloat f) = Ok (W, H, interp) ->
  exists g, H = PFloat g.
Proof.
  unfold fix_resize_args. intros Hrun.
  repeat (bind_inv Hrun; split_pairs Hrun).
  injection Hrun as _ <- _.
  match goal with
  | Hm : py_mul (PInt _) (PFloat _) = Ok ?h |- exists g, ?h = _ =>
      cbn [py_mul py_float] in Hm; bind_inv Hm; injection Hm as <-
  end.
  eexists; reflexivity.
Qed.

Lemma upscale_image_args_zero_unit s upscale min_size :
  exists e, upscale_image_args s upscale min_size (PInt 0) = Raise e.
Proof.
  destruct (upscale_image_args s upscale min_size (PInt 0))
    as [[[W H] i]|e] eqn:Hrun; [exfalso|now exists e].
  unfold upscale_image_args in Hrun.
  repeat (bind_inv Hrun; split_pairs Hrun).
  repeat match goal with
         | Hd : py_truediv _ (PInt 0) = Ok _ |- _ =>
             rewrite py_truediv_by_int_zero in Hd; discriminate Hd
         end.
Qed.

Lemma fix_resize_args_zero_unit s size :
  exists e, fix_resize_args s size (PInt 0) = Raise e.
Proof.
  destruct (fix_resize_args s size (PInt 0)) as [[[W H] i]|e] eqn:Hrun;
    [exfalso|now exists e].
  unfold fix_resize_args in Hrun.
  repeat (bind_inv Hrun; split_pairs Hrun).
  repeat match goal with
         | Hd : py_truediv _ (PInt 0) = Ok _ |- _ =>
             rewrite py_truediv_by_int_zero in Hd; discriminate Hd
         end.
Qed.

(** X15: the resolution unit has to be a non-zero integer: with a unit of 0
    (the quantisation divides by it) or a float unit (the target size
    handed to cv2.resize is then not a pair of ints) neither upscale_image
    nor fix_resize ever returns an image. *)
Theorem resize_helpers_bad_unit (K : kernels) (x : nparray) (unit : pynum) :
  unit = PInt 0 \/ (exists f, unit = PFloat f) ->
  (forall upscale min_size,
     exists e, upscale_image K x upscale min_size unit = Raise e) /\
  (forall size, exists e, fix_resize K x size unit = Raise e).
Proof.
  intros [-> | [f ->]]; split.
  - intros upscale min_size. unfold upscale_image.
    destruct (upscale_image_args_zero_unit (np_shape x) upscale min_size)
      as [e ->].
    now exists e.
  - intros sz. unfold fix_resize.
    destruct (fix_resize_args_zero_unit (np_shape x) sz) as [e ->].
    now exists e.
  - intros upscale min_size. unfold upscale_image.
    destruct (upscale_image_args (np_shape x) upscale min_size (PFloat f))
      as [[[W H] i]|e] eqn:Hrun; [|now exists e].
    destruct (upscale_image_args_float_unit _ _ _ _ _ _ _ Hrun) as [g ->].
    cbn [exc_bind]. unfold cv2_resize_u8, cv2_resize_shape.
    destruct W; eexists; reflexivity.
  - intros sz. unfold fix_resize.
    destruct (fix_resize_args (np_shape x) sz (PFloat f))
      as [[[W H] i]|e] eqn:Hrun; [|now exists e].
    destruct (fix_resize_args_float_unit _ _ _ _ _ _ Hrun) as [g ->].
    cbn [exc_bind]. unfold cv2_resize_u8, cv2_resize_shape.
    destruct W; eexists; reflexivity.
Qed.

Lemma resize_helpers_bad_unit_witness :
  (exists e,
     upscale_image flat_kernels (U8 demo_array) (PInt 2) None (PInt 0)
     = Raise e) /\
  (exists e,
     fix_resize flat_kernels (U8 demo_array) (PInt 8) (PFloat f64_64)
     = Raise e).
Proof.
  split.
  - apply (proj1 (resize_helpers_bad_unit flat_kernels (U8 demo_array)
                    (PInt 0) (or_introl eq_refl))).
  - apply (proj2 (resize_helpers_bad_unit flat_kernels (U8 demo_array)
                    (PFloat f64_64) (or_intror (ex_intro _ f64_64 eq_refl)))).
Defined.

(** ** Checkpoints and model construction, continued *)

(** X16: a checkpoint is unwrapped down to the first mapping without a
    'state_dict' key: a plain mapping is returned as it is on both paths,
    and on the non-safetensors path a mapping wrapped once yields the inner
    mapping. *)
Theorem load_state_dict_plain (E : env) (p loc : string) :
  (forall items,
     is_safetensors p = false ->
     torch_load E p loc = Ok (PDict items) ->
     assoc "state_dict" items = None ->
     load_state_dict E p loc =
       ([CheckpointRead p loc; Print ("Loaded state_dict from [" ++ p ++ "]")],
        Ok (PDict items))) /\
  (forall outer mid,
     is_safetensors p = false ->
     torch_load E p loc = Ok (PDict outer) ->
     assoc "state_dict" outer = Some (PDict mid) ->
     assoc "state_dict" mid = None ->
     load_state_dict E p loc =
       ([CheckpointRead p loc; Print ("Loaded state_dict from [" ++ p ++ "]")],
        Ok (PDict mid))) /\
  (forall items,
     is_safetensors p = true ->
     safetensors_load_file E p loc = Ok (PDict items) ->
     assoc "state_dict" items = None ->
     load_state_dict E p loc =
       ([CheckpointRead p loc; Print ("Loaded state_dict from [" ++ p ++ "]")],
        Ok (PDict items))).
Proof.
  repeat split.
  - intros items Hext Hload Hkey.
    unfold load_state_dict, call. rewrite Hext, Hload.
    cbn [io_bind lift]. rewrite (get_state_dict_plain _ Hkey).
    cbn [io_bind lift app]. rewrite (get_state_dict_plain _ Hkey).
    reflexivity.
  - intros outer mid Hext Hload Houter Hmid.
    unfold load_state_dict, call. rewrite Hext, Hload.
    cbn [io_bind lift]. rewrite (get_state_dict_wrapped _ _ Houter).
    cbn [io_bind lift app]. rewrite (get_state_dict_plain _ Hmid).
    reflexivity.
  - intros items Hext Hload Hkey.
    unfold load_state_dict, call. rewrite Hext, Hload.
    cbn [io_bind lift]. rewrite (get_state_dict_plain _ Hkey).
    reflexivity.
Qed.

Lemma load_state_dict_plain_witness :
  load_state_dict
    (env_with (Ok weights) (Ok weights) (fun _ => true) None) "a.ckpt" "cuda"
  = ([CheckpointRead "a.ckpt" "cuda"; Print "Loaded state_dict from [a.ckpt]"],
     Ok weights).
Proof.
  apply (proj1 (load_state_dict_plain _ "a.ckpt" "cuda")
           [("conv.weight", PTensor 1)]); reflexivity.
Defined.

(** X17: what stops load_state_dict.  An error of the reader comes out as
    it is and the 'Loaded' line is not printed; on the non-safetensors path
    a file that holds a bare tensor, or whose 'state_dict' entry is a tensor,
    fails with an attribute error, because the second unwrapping asks a
    tensor for [.get]. *)
Theorem load_state_dict_failures (E : env) (p loc : string) :
  (forall e,
     is_safetensors p = false -> torch_load E p loc = Raise e ->
     load_state_dict E p loc = ([CheckpointRead p loc], Raise e)) /\
  (forall e,
     is_safetensors p = true -> safetensors_load_file E p loc = Raise e ->
     load_state_dict E p loc = ([CheckpointRead p loc], Raise e)) /\
  (forall t,
     is_safetensors p = false -> torch_load E p loc = Ok (PTensor t) ->
     load_state_dict E p loc = ([CheckpointRead p loc], Raise AttributeError))
  /\
  (forall outer t,
     is_safetensors p = false -> torch_load E p loc = Ok (PDict outer) ->
     assoc "state_dict" outer = Some (PTensor t) ->
     load_state_dict E p loc = ([CheckpointRead p loc], Raise AttributeError)).
Proof.
  repeat split.
  - intros e Hext Hload. unfold load_state_dict, call.
    now rewrite Hext, Hload.
  - intros e Hext Hload. unfold load_state_dict, call.
    now rewrite Hext, Hload.
  - intros t Hext Hload. unfold load_state_dict, call.
    now rewrite Hext, Hload.
  - intros outer t Hext Hload Hkey. unfold load_state_dict, call.
    rewrite Hext, Hload. cbn [io_bind lift].
    rewrite (get_state_dict_wrapped _ _ Hkey). reflexivity.
Qed.

Lemma load_state_dict_failures_witness :
  load_state_dict
    (env_with (Ok (PTensor 7)) (Raise ValueError) (fun _ => true) None)
    "a.ckpt" "cpu"
  = ([CheckpointRead "a.ckpt" "cpu"], Raise AttributeError) /\
  load_state_dict
    (env_with (Ok (PTensor 7)) (Raise ValueError) (fun _ => true) None)
    "a.safetensors" "cpu"
  = ([CheckpointRead "a.safetensors" "cpu"], Raise ValueError).
Proof.
  split.
  - apply (proj1 (proj2 (proj2 (load_state_dict_failures _ "a.ckpt" "cpu")))
             7%N); reflexivity.
  - apply (proj1 (proj2 (load_state_dict_failures _ "a.safetensors" "cpu"))
             ValueError); reflexivity.
Defined.

Lemma io_bind_lift_ok {A B} (a : A) (k : A -> io B) :
  io_bind (lift (Ok a)) k = k a.
Proof. unfold lift. cbn [io_bind]. now destruct (k a). Qed.

Lemma create_SUPIR_model_split (E : env) (cp : string)
  (sign : option string) (dev : string) (ckpt : option string)
  (sampler : string) :
  create_SUPIR_model E cp sign dev ckpt sampler =
    (run model <- primary_stage E cp ckpt sampler ;
     run model <- sign_stage E model sign ;
     final_stage E cp dev sampler model).
Proof.
  unfold create_SUPIR_model, primary_stage.
  repeat rewrite io_bind_assoc.
  repeat (apply io_bind_ext; intros; repeat rewrite io_bind_assoc).
  reflexivity.
Qed.

Lemma load_to_device_missing_eq (E : env) (model : Model E) (p : string) :
  path_exists E p = false ->
  load_to_device E model (Some p) =
    ((Printt ("Loading state_dict from [" ++ p ++ "]")
      :: (if String.eqb p "" then [] else [PathExists p]))
     ++ [Printt ("No checkpoint found at [" ++ p ++ "]")], Ok model)%list.
Proof.
  intros Hmiss. unfold load_to_device, truthy, call.
  destruct (String.eqb p "") eqn:Hp; cbn [negb fmt].
  - reflexivity.
  - rewrite Hmiss. reflexivity.
Qed.

(** X18: loading a checkpoint that exists.  The state dictionary is read
    onto "cuda" when CUDA is available and onto "cpu" otherwise, then handed
    to the model; the model that comes back is the one
    [model.load_state_dict] produced, and the events are, in order: the log
    line, the existence test, the CUDA query, the read, the load into the
    model and the closing log line. *)
Theorem load_to_device_existing (E : env) (model model' : Model E)
  (p : string) (t : list event) (sd : pyobj) :
  p <> "" ->
  path_exists E p = true ->
  load_state_dict E p (if cuda_is_available E then "cuda" else "cpu")
  = (t, Ok sd) ->
  Model_load_state_dict E model sd = Ok model' ->
  load_to_device E model (Some p) =
    ([Printt ("Loading state_dict from [" ++ p ++ "]"); PathExists p;
      CudaQuery] ++ t
     ++ [ModelLoadStateDict sd;
         Printt ("Loaded state_dict from [" ++ p ++ "]")], Ok model')%list.
Proof.
  intros Hne Hex Hsd Hload. apply String.eqb_neq in Hne.
  unfold load_to_device, truthy, call. rewrite Hne, Hex.
  cbn [negb io_bind emit app fmt]. rewrite Hsd. cbn [io_bind].
  rewrite Hload. reflexivity.
Qed.

Lemma load_to_device_existing_witness :
  load_to_device toy_env ([], "") (Some "sdxl.ckpt") =
    ([Printt "Loading state_dict from [sdxl.ckpt]"; PathExists "sdxl.ckpt";
      CudaQuery]
     ++ [CheckpointRead "sdxl.ckpt" "cpu";
         Print "Loaded state_dict from [sdxl.ckpt]"]
     ++ [ModelLoadStateDict weights;
         Printt "Loaded state_dict from [sdxl.ckpt]"], Ok ([weights], ""))%list.
Proof.
  apply (load_to_device_existing toy_env ([], "") ([weights], "") "sdxl.ckpt"
           [CheckpointRead "sdxl.ckpt" "cpu";
            Print "Loaded state_dict from [sdxl.ckpt]"] weights);
    [discriminate | reflexivity | reflexivity | reflexivity].
Defined.

(** X19: unlike a missing file, a checkpoint that exists but cannot be
    loaded is fatal: the error of the read, or of the load into the model,
    comes out of the load step, and after a failed read the model is not
    touched. *)
Theorem load_to_device_unreadable (E : env) (model : Model E)
  (p : string) (t : list event) :
  p <> "" ->
  path_exists E p = true ->
  (forall e,
     load_state_dict E p (if cuda_is_available E then "cuda" else "cpu")
     = (t, Raise e) ->
     load_to_device E model (Some p) =
       ([Printt ("Loading state_dict from [" ++ p ++ "]"); PathExists p;
         CudaQuery] ++ t, Raise e)%list) /\
  (forall sd e,
     load_state_dict E p (if cuda_is_available E then "cuda" else "cpu")
     = (t, Ok sd) ->
     Model_load_state_dict E model sd = Raise e ->
     load_to_device E model (Some p) =
       ([Printt ("Loading state_dict from [" ++ p ++ "]"); PathExists p;
         CudaQuery] ++ t ++ [ModelLoadStateDict sd], Raise e)%list).
Proof.
  intros Hne Hex. apply String.eqb_neq in Hne. split.
  - intros e Hsd. unfold load_to_device, truthy, call. rewrite Hne, Hex.
    cbn [negb io_bind emit app fmt]. rewrite Hsd. reflexivity.
  - intros sd e Hsd Hload. unfold load_to_device, truthy, call.
    rewrite Hne, Hex. cbn [negb io_bind emit app fmt]. rewrite Hsd.
    cbn [io_bind]. rewrite Hload. reflexivity.
Qed.

Lemma load_to_device_unreadable_witness :
  load_to_device
    (env_with (Raise ValueError) (Raise ValueError) (fun _ => true) None)
    ([], "") (Some "bad.ckpt")
  = ([Printt "Loading state_dict from [bad.ckpt]"; PathExists "bad.ckpt";
      CudaQuery; CheckpointRead "bad.ckpt" "cuda"], Raise ValueError).
Proof.
  apply (proj1 (load_to_device_unreadable
                  (env_with (Raise ValueError) (Raise ValueError)
                     (fun _ => true) None)
                  ([], "") "bad.ckpt" [CheckpointRead "bad.ckpt" "cuda"]
                  ltac:(discriminate) eq_refl) ValueError).
  reflexivity.
Defined.

(** X20: the [device] argument of create_SUPIR_model decides nothing: the
    model returned or the error raised, and every event but the closing log
    line, are the same for every device; the argument only appears in that
    line. *)
Theorem create_SUPIR_model_device_only_logged (E : env) (cp : string)
  (sign ckpt : option string) (sampler : string) :
  exists t r,
    forall dev,
      create_SUPIR_model E cp sign dev ckpt sampler =
        (match r with
         | Ok _ =>
             t ++ [Printt ("Loaded model config from [" ++ cp
                           ++ "] and moved to " ++ dev)]
         | Raise _ => t
         end, r)%list.
Proof.
  destruct (run model <- primary_stage E cp ckpt sampler ;
            sign_stage E model sign) as [t [m|e]] eqn:Hbody.
  - exists t, (Ok (set_sampler E m sampler)). intros dev.
    rewrite create_SUPIR_model_split, <- io_bind_assoc, Hbody. reflexivity.
  - exists t, (Raise e). intros dev.
    rewrite create_SUPIR_model_split, <- io_bind_assoc, Hbody. reflexivity.
Qed.

(** X21: how the stages compose.  With sign 'F' or 'Q' the call is the
    primary stage, then the load step on the sign's checkpoint path
    [<dir of the module>/../models/v0<sign>.ckpt], then the final stage;
    with no sign, or the empty string, it is the primary stage and the final
    stage, and no second checkpoint is looked for. *)
Theorem create_SUPIR_model_stages (E : env) (cp dev : string)
  (ckpt : option string) (sampler : string) :
  (forall sign, sign = "F" \/ sign = "Q" ->
     create_SUPIR_model E cp (Some sign) dev ckpt sampler =
       (run model <- primary_stage E cp ckpt sampler ;
        run model <-
          load_to_device E model (Some (sign_checkpoint_path E sign)) ;
        final_stage E cp dev sampler model)) /\
  (forall sign, sign = None \/ sign = Some "" ->
     create_SUPIR_model E cp sign dev ckpt sampler =
       (run model <- primary_stage E cp ckpt sampler ;
        final_stage E cp dev sampler model)).
Proof.
  split; intros sign Hsign; rewrite create_SUPIR_model_split;
    apply io_bind_ext; intros model.
  - destruct Hsign as [-> | ->]; cbn [sign_stage truthy String.eqb negb];
      unfold sign_allowed; cbn [String.eqb Ascii.eqb Bool.eqb orb py_assert];
      rewrite io_bind_assoc, io_bind_lift_ok; reflexivity.
  - destruct Hsign as [-> | ->]; cbn [sign_stage truthy String.eqb negb];
      change (io_ret model) with (lift (Ok model));
      rewrite io_bind_lift_ok; reflexivity.
Qed.

Lemma create_SUPIR_model_stages_witness :
  create_SUPIR_model toy_env "cfg.yaml" (Some "Q") "cpu" None "DPMPP2M" =
    (run model <- primary_stage toy_env "cfg.yaml" None "DPMPP2M" ;
     run model <-
       load_to_device toy_env model (Some (sign_checkpoint_path toy_env "Q")) ;
     final_stage toy_env "cfg.yaml" "cpu" "DPMPP2M" model) /\
  create_SUPIR_model toy_env "cfg.yaml" (Some "") "cpu" None "DPMPP2M" =
    (run model <- primary_stage toy_env "cfg.yaml" None "DPMPP2M" ;
     final_stage toy_env "cfg.yaml" "cpu" "DPMPP2M" model).
Proof.
  split.
  - apply (proj1 (create_SUPIR_model_stages toy_env "cfg.yaml" "cpu" None
                    "DPMPP2M") "Q"). now right.
  - apply (proj2 (create_SUPIR_model_stages toy_env "cfg.yaml" "cpu" None
                    "DPMPP2M") (Some "")). now right.
Defined.

(** X22: missing checkpoints do not stop the build.  When the configuration
    loads, the model is instantiated, the primary checkpoint is absent (not
    configured, or not on disk) and the checkpoint of a valid sign is not on
    disk either, create_SUPIR_model returns the freshly instantiated model
    with its sampler set, and no checkpoint is read or loaded. *)
Theorem create_SUPIR_model_without_checkpoints (E : env)
  (cp sign dev sampler : string) (c0 c1 : Config E) (mc : ModelConfig E)
  (m : Model E) :
  OmegaConf_load E cp = Ok c0 ->
  set_sampler_target E c0 sampler = Ok c1 ->
  get_model E c1 = Ok mc ->
  instantiate_from_config E mc = Ok m ->
  (forall p, get_SDXL_CKPT E c1 = Some p -> path_exists E p = false) ->
  sign = "F" \/ sign = "Q" ->
  path_exists E (sign_checkpoint_path E sign) = false ->
  exists t,
    create_SUPIR_model E cp (Some sign) dev None sampler
    = (t, Ok (set_sampler E m sampler)) /\
    forallb (fun e => negb (touches_checkpoint e)) t = true.
Proof.
  intros Hcfg Htarget Hmodel Hinst Hprimary Hsign Hsecond.
  rewrite create_SUPIR_model_split.
  unfold primary_stage, call. rewrite Hcfg. cbn [io_bind lift].
  rewrite Htarget. cbn [io_bind lift io_ret emit app]. rewrite Hmodel.
  cbn [io_bind]. rewrite Hinst. cbn [io_bind app].
  assert (Hfirst : exists t1,
            load_to_device E m (get_SDXL_CKPT E c1) = (t1, Ok m) /\
            forallb (fun e => negb (touches_checkpoint e)) t1 = true).
  { destruct (get_SDXL_CKPT E c1) as [p|] eqn:Hp.
    - rewrite (load_to_device_missing_eq E m p (Hprimary p eq_refl)).
      eexists; split; [reflexivity|]. now destruct (String.eqb p "").
    - eexists; split; reflexivity. }
  destruct Hfirst as (t1 & -> & Ht1). cbn [io_bind].
  assert (Hstage : sign_stage E m (Some sign)
                   = load_to_device E m (Some (sign_checkpoint_path E sign))).
  { destruct Hsign as [-> | ->]; cbn [sign_stage truthy String.eqb negb];
      unfold sign_allowed; cbn [String.eqb Ascii.eqb Bool.eqb orb py_assert];
      rewrite io_bind_lift_ok; reflexivity. }
  rewrite Hstage, (load_to_device_missing_eq E m _ Hsecond).
  unfold final_stage, emit, io_ret. cbn [io_bind].
  eexists; split; [reflexivity|].
  cbn [forallb touches_checkpoint negb andb app].
  rewrite !forallb_app, Ht1.
  now destruct (String.eqb (sign_checkpoint_path E sign) "").
Qed.

Lemma create_SUPIR_model_without_checkpoints_witness :
  exists t,
    create_SUPIR_model
      (env_with (Ok weights) (Ok weights) (fun _ => false) (Some "sdxl.ckpt"))
      "cfg.yaml" (Some "F") "cpu" None "DPMPP2M"
    = (t, Ok ([], "DPMPP2M")) /\
    forallb (fun e => negb (touches_checkpoint e)) t = true.
Proof.
  apply (create_SUPIR_model_without_checkpoints
           (env_with (Ok weights) (Ok weights) (fun _ => false)
              (Some "sdxl.ckpt"))
           "cfg.yaml" "F" "cpu" "DPMPP2M" (Some "sdxl.ckpt")
           (Some "sdxl.ckpt") tt ([], ""));
    try reflexivity; auto.
Defined.

(** X23: early failures stop the build at once.  If the configuration
    cannot be read, its error comes out and nothing else happens; if the
    model cannot be instantiated, its error comes out and no checkpoint is
    looked for, whatever the sign. *)
Theorem create_SUPIR_model_early_failure (E : env) (cp : string)
  (sign : option string) (dev sampler : string) :
  (forall ckpt e,
     OmegaConf_load E cp = Raise e ->
     create_SUPIR_model E cp sign dev ckpt sampler
     = ([ConfigRead cp], Raise e)) /\
  (forall c0 c1 mc e,
     OmegaConf_load E cp = Ok c0 ->
     set_sampler_target E c0 sampler = Ok c1 ->
     get_model E c1 = Ok mc ->
     instantiate_from_config E mc = Raise e ->
     create_SUPIR_model E cp sign dev None sampler
     = ([ConfigRead cp; Printt ("Loading model from [" ++ cp ++ "]");
         Instantiate], Raise e)).
Proof.
  split.
  - intros ckpt e Hcfg. unfold create_SUPIR_model, call. now rewrite Hcfg.
  - intros c0 c1 mc e Hcfg Htarget Hmodel Hinst.
    unfold create_SUPIR_model, call. rewrite Hcfg. cbn [io_bind lift].
    rewrite Htarget. cbn [io_bind lift io_ret emit app]. rewrite Hmodel.
    cbn [io_bind]. rewrite Hinst. reflexivity.
Qed.

Lemma create_SUPIR_model_early_failure_witness :
  create_SUPIR_model no_target_env "cfg.yaml" (Some "F") "cpu" None "DPMPP2M"
  = ([ConfigRead "cfg.yaml"; Printt "Loading model from [cfg.yaml]";
      Instantiate], Raise (ExternalError "no target")).
Proof.
  apply (proj2 (create_SUPIR_model_early_failure no_target_env "cfg.yaml"
                  (Some "F") "cpu" "DPMPP2M") tt tt tt); reflexivity.
Defined.

(** ** File names *)

Lemma chars_app (a b : string) :
  list_ascii_of_string (a ++ b)
  = (list_ascii_of_string a ++ list_ascii_of_string b)%list.
Proof. induction a as [|c a IH]; cbn; [reflexivity | now rewrite IH]. Qed.

Lemma string_of_chars_app (l1 l2 : list ascii) :
  string_of_list_ascii (l1 ++ l2)%list
  = string_of_list_ascii l1 ++ string_of_list_ascii l2.
Proof. induction l1 as [|c l1 IH]; cbn; [reflexivity | now rewrite IH]. Qed.

Lemma split_last_none (c : ascii) (s : chars) :
  forallb (fun a => negb (Ascii.eqb a c)) s = true ->
  split_last c s = None.
Proof.
  induction s as [|a s IH]; [reflexivity|]. cbn [forallb split_last].
  intros H. apply andb_true_iff in H. destruct H as [Ha Hs].
  rewrite (IH Hs). apply negb_true_iff in Ha. now rewrite Ha.
Qed.

Lemma split_last_app (c : ascii) (t : chars) :
  forallb (fun a => negb (Ascii.eqb a c)) t = true ->
  forall s : chars, split_last c (s ++ c :: t)%list = Some (s, c :: t).
Proof.
  intros Ht. induction s as [|a s IH].
  - cbn [app split_last]. rewrite (split_last_none c t Ht).
    now rewrite Ascii.eqb_refl.
  - cbn [app split_last]. now rewrite IH.
Qed.

Lemma free_of_app (c : ascii) (a b : string) :
  free_of c (a ++ b) = free_of c a && free_of c b.
Proof. unfold free_of. now rewrite chars_app, forallb_app. Qed.

(** The last path component and what precedes it, for a name put after a
    directory prefix. *)
Lemma split_dir (dir name : string) :
  dir = "" \/ (exists d, dir = d ++ "/") ->
  free_of "/" name = true ->
  match split_last "/" (list_ascii_of_string (dir ++ name)) with
  | Some (pre, suf) => ((pre ++ ["/"%char])%list, tl suf)
  | None => ([], list_ascii_of_string (dir ++ name))
  end = (list_ascii_of_string dir, list_ascii_of_string name).
Proof.
  intros [-> | [d ->]] Hname.
  - cbn [append]. now rewrite (split_last_none _ _ Hname).
  - rewrite !chars_app. cbn [list_ascii_of_string].
    rewrite <- app_assoc. cbn [app].
    now rewrite (split_last_app _ _ Hname).
Qed.

(** X24: the extension test on ordinary file names.  For a name made of a
    directory prefix, a stem without slash that is not only dots, and an
    extension (a dot followed by characters other than dot and slash),
    splitext cuts exactly before the extension, and the file is taken for a
    safetensors file exactly when the extension, lower-cased, is
    ".safetensors". *)
Theorem is_safetensors_by_extension (dir stem ext : string) :
  dir = "" \/ (exists d, dir = d ++ "/") ->
  free_of "/" stem = true ->
  only_dots stem = false ->
  free_of "." ext = true ->
  free_of "/" ext = true ->
  splitext (dir ++ stem ++ "." ++ ext) = (dir ++ stem, "." ++ ext) /\
  is_safetensors (dir ++ stem ++ "." ++ ext)
  = String.eqb (str_lower ("." ++ ext)) ".safetensors".
Proof.
  intros Hdir Hstem Hdots Hext_dot Hext_slash.
  assert (Hsplit : splitext (dir ++ stem ++ "." ++ ext)
                   = (dir ++ stem, "." ++ ext)).
  { unfold splitext.
    rewrite (split_dir dir (stem ++ "." ++ ext) Hdir)
      by (rewrite !free_of_app, Hstem, Hext_slash; reflexivity).
    rewrite chars_app. cbn [append list_ascii_of_string].
    rewrite (split_last_app _ _ Hext_dot).
    unfold only_dots in Hdots. rewrite Hdots.
    rewrite string_of_chars_app, !string_of_list_ascii_of_string.
    cbn [string_of_list_ascii]. rewrite string_of_list_ascii_of_string.
    reflexivity. }
  split; [exact Hsplit|].
  unfold is_safetensors. now rewrite Hsplit.
Qed.

Lemma is_safetensors_by_extension_witness :
  splitext ("models/" ++ "v0.Q" ++ "." ++ "SafeTensors")
  = ("models/" ++ "v0.Q", "." ++ "SafeTensors") /\
  is_safetensors ("models/" ++ "v0.Q" ++ "." ++ "SafeTensors")
  = String.eqb (str_lower ("." ++ "SafeTensors")) ".safetensors".
Proof.
  apply (is_safetensors_by_extension "models/" "v0.Q" "SafeTensors");
    try reflexivity.
  right. now exists "models".
Defined.

(** X25: a file whose name has only dots before its last dot, such as a
    hidden file called ".safetensors", has no extension for splitext, so it
    is never taken for a safetensors file and goes to torch.load. *)
Theorem is_safetensors_hidden_file (dir dots ext : string) :
  dir = "" \/ (exists d, dir = d ++ "/") ->
  only_dots dots = true ->
  free_of "." ext = true ->
  free_of "/" ext = true ->
  is_safetensors (dir ++ dots ++ "." ++ ext) = false.
Proof.
  intros Hdir Hdots Hext_dot Hext_slash.
  assert (Hslash : free_of "/" dots = true).
  { unfold free_of, only_dots in *. rewrite forallb_forall in *.
    intros a Ha. apply Hdots in Ha. apply Ascii.eqb_eq in Ha. now subst. }
  unfold is_safetensors, splitext.
  rewrite (split_dir dir (dots ++ "." ++ ext) Hdir)
    by (rewrite !free_of_app, Hslash, Hext_slash; reflexivity).
  rewrite chars_app. cbn [append list_ascii_of_string].
  rewrite (split_last_app _ _ Hext_dot).
  unfold only_dots in Hdots. rewrite Hdots. reflexivity.
Qed.

Lemma is_safetensors_hidden_file_witness :
  is_safetensors ("models/" ++ "" ++ "." ++ "safetensors") = false.
Proof.
  apply (is_safetensors_hidden_file "models/" "" "safetensors");
    try reflexivity.
  right. now exists "models".
Defined.

Lemma string_app_assoc (a b c : string) : (a ++ b) ++ c = a ++ b ++ c.
Proof. induction a as [|x a IH]; cbn; [reflexivity | now rewrite IH]. Qed.

Lemma ends_with_slash_app (a b : string) :
  b <> "" -> ends_with_slash (a ++ b) = ends_with_slash b.
Proof.
  intros Hb. unfold ends_with_slash. rewrite chars_app, rev_app_distr.
  destruct (rev (list_ascii_of_string b)) as [|c r] eqn:Hrev; [|reflexivity].
  exfalso. apply Hb.
  apply (f_equal (@rev ascii)) in Hrev. rewrite rev_involutive in Hrev.
  cbn in Hrev. rewrite <- (string_of_list_ascii_of_string b), Hrev.
  reflexivity.
Qed.

Lemma append_nonempty_r (a b : string) : b <> "" -> a ++ b <> "".
Proof.
  intros Hb Heq. destruct a; cbn in Heq; [contradiction | discriminate].
Qed.

Lemma path_join2_plain (a b : string) :
  a <> "" -> ends_with_slash a = false -> starts_with_slash b = false ->
  path_join2 a b = a ++ "/" ++ b.
Proof.
  intros Ha Hend Hstart. unfold path_join2.
  apply String.eqb_neq in Ha. now rewrite Hstart, Ha, Hend.
Qed.

Lemma dirname_of_file (d f : string) :
  d <> "" -> ends_with_slash d = false -> free_of "/" f = true ->
  dirname (d ++ "/" ++ f) = d.
Proof.
  intros Hd Hend Hf. unfold dirname.
  rewrite chars_app. cbn [append list_ascii_of_string].
  rewrite (split_last_app _ _ Hf).
  unfold ends_with_slash in Hend.
  destruct (rev (list_ascii_of_string d)) as [|c r] eqn:Hrev.
  { exfalso. apply Hd.
    apply (f_equal (@rev ascii)) in Hrev. rewrite rev_involutive in Hrev.
    cbn in Hrev. rewrite <- (string_of_list_ascii_of_string d), Hrev.
    reflexivity. }
  assert (Hchars : list_ascii_of_string d = (rev r ++ [c])%list).
  { rewrite <- (rev_involutive (list_ascii_of_string d)), Hrev.
    reflexivity. }
  replace (forallb (Ascii.eqb "/") (list_ascii_of_string d ++ ["/"%char])%list)
    with false.
  - rewrite rev_app_distr. cbn [rev app rstrip_slash_rev].
    rewrite Ascii.eqb_refl, Hrev. cbn [rstrip_slash_rev]. rewrite Hend.
    rewrite <- Hrev, rev_involutive.
    apply string_of_list_ascii_of_string.
  - symmetry. rewrite Hchars, !forallb_app. cbn [forallb].
    rewrite Ascii.eqb_sym, Hend.
    now rewrite andb_false_r.
Qed.

(** X26: where a sign's checkpoint is looked for.  When the module file is
    [d/f], with [d] a non-empty directory not ending in a slash, the path
    given to the load step for sign [s] is the absolute form of
    [d/../models/v0<s>.ckpt]. *)
Theorem sign_checkpoint_path_posix (E : env) (d f sign : string) :
  module_file E = d ++ "/" ++ f ->
  d <> "" -> ends_with_slash d = false -> free_of "/" f = true ->
  sign_checkpoint_path E sign
  = abspath E (d ++ "/../models/v0" ++ sign ++ ".ckpt").
Proof.
  intros Hfile Hd Hend Hf. unfold sign_checkpoint_path, path_join.
  rewrite Hfile, (dirname_of_file d f Hd Hend Hf).
  cbn [fold_left].
  rewrite (path_join2_plain d "..") by (trivial; reflexivity).
  rewrite (path_join2_plain (d ++ "/" ++ "..") "models");
    [| apply append_nonempty_r; discriminate
     | rewrite ends_with_slash_app by discriminate; reflexivity
     | reflexivity].
  rewrite path_join2_plain;
    [| apply append_nonempty_r; discriminate
     | rewrite ends_with_slash_app by discriminate; reflexivity
     | reflexivity].
  f_equal. rewrite !string_app_assoc. reflexivity.
Qed.

Lemma sign_checkpoint_path_posix_witness :
  sign_checkpoint_path toy_env "Q"
  = abspath toy_env ("/opt/SUPIR/SUPIR" ++ "/../models/v0" ++ "Q" ++ ".ckpt").
Proof.
  apply (sign_checkpoint_path_posix toy_env "/opt/SUPIR/SUPIR" "util.py" "Q");
    [reflexivity | discriminate | reflexivity | reflexivity].
Defined.

(** ** The target dimensions PIL2Tensor reports *)

(** X27: without a forced size, the two dimensions PIL2Tensor returns next
    to the tensor are the rounded products of the picture's width and height
    by the upscale factor; the minimum-size floor, applied afterwards,
    changes the tensor but not these two numbers. *)
Theorem PIL2Tensor_reported_dims (K : kernels) (img : pil_image)
  (upsacle min_size : pynum) (x : ndarray spec_float) (h0 w0 : Z) :
  PIL2Tensor K img upsacle min_size None = Ok (x, h0, w0) ->
  exists w h,
    py_mul (PInt (fst (size img))) upsacle = Ok w /\
    py_mul (PInt (snd (size img))) upsacle = Ok h /\
    py_round w = Ok w0 /\ py_round h = Ok h0.
Proof.
  unfold PIL2Tensor. destruct (size img) as [wi hi]. cbn [fst snd].
  intros Hrun.
  do 4 bind_inv Hrun.
  match goal with
  | Hw : py_mul (PInt wi) upsacle = Ok ?w,
    Hh : py_mul (PInt hi) upsacle = Ok ?h |- _ => exists w, h
  end.
  repeat (bind_inv Hrun; split_pairs Hrun).
  injection Hrun as _ <- <-.
  repeat match goal with
         | Hq : Ok _ = Ok _ |- _ => injection Hq as <- <- <- <-
         end.
  auto.
Qed.

Lemma PIL2Tensor_reported_dims_witness :
  exists w h,
    py_mul (PInt (fst (size demo_image))) (PInt 1) = Ok w /\
    py_mul (PInt (snd (size demo_image))) (PInt 1) = Ok h /\
    py_round w = Ok 40 /\ py_round h = Ok 48.
Proof.
  apply (PIL2Tensor_reported_dims flat_kernels demo_image (PInt 1) (PInt 64)
           demo_tensor 48 40).
  exact demo_tensor_run.
Defined.
